(** * lighter_signer_bridge: the stdin/stdout JSON-RPC bridge to the Lighter signer

    A shallow embedding of [scripts/lighter_signer_bridge.py].

    - JSON values are the Python values [json.loads] produces; a dict is a
      [gmap string json].
    - The two module-level globals [_CLIENT_CONFIG] and [_INITIALISED_KEYS]
      and the state of the loaded shared library form the [world] every
      handler threads; a Python exception leaves the world as it was at the
      [raise].
    - The shared library is an interface ([SignerLib]); every foreign call is
      also appended to a ghost log, so that statements can speak about the
      calls a request made.
    - CPython library functions whose text is not in the script ([int] on a
      [str], [str] on a float or on a built-in exception, UTF-8 coding) are
      fields of [PyRuntime]; every theorem holds for all of them.
    - The input of [main] is the list of lines as [str.strip] and
      [json.loads] classify them ([line]): blank, rejected with a
      [JSONDecodeError], rejected with another exception, or parsed.
      Failures of the interpreter that are not tied to a line (decoding of
      standard input, memory) are not part of the model. *)

From Stdlib Require Import ZArith String DecimalString.
From Stdlib Require Import Floats.SpecFloat.
From stdpp Require Import gmap strings list fin_maps pretty.

Set Warnings "-register-all".
Local Open Scope Z_scope.
Local Open Scope string_scope.
Local Open Scope list_scope.

(** ** Python values *)

Inductive json : Type :=
| JNull
| JBool (b : bool)
| JInt (z : Z)
| JFloat (f : spec_float)
| JStr (s : string)
| JArr (l : list json)
| JObj (m : gmap string json).

Abbreviation dict := (gmap string json).

(** The exceptions the script can meet.  All of them derive from Python's
    [Exception]. *)
Inductive exn : Type :=
| KeyError (key : string)
| TypeError (culprit : json)
| ValueError (culprit : json)
| OverflowError (culprit : json)
| AttributeError (culprit : json) (attr : string)
| UnicodeEncodeError (s : string)
| RecursionError.

Class PyRuntime := {
  (** [int(s)] for a [str]; [None] is [ValueError]. *)
  int_of_str : string -> option Z;
  (** [repr] of a float or of a container. *)
  py_repr : json -> string;
  (** [str(exc)] for the built-in exceptions other than [KeyError]. *)
  exn_message : exn -> string;
  (** [s.encode("utf-8")]; [None] is [UnicodeEncodeError] (lone surrogate). *)
  encode_utf8 : string -> option string;
  (** [b.decode("utf-8", errors="replace")]. *)
  decode_utf8 : string -> string
}.

(** ** ctypes *)

(** [ctypes.c_int(z)] and [ctypes.c_longlong(z)] keep the low 32 and 64 bits,
    read as a signed number; they never raise. *)
Definition c_int (z : Z) : Z := (z + 2 ^ 31) mod 2 ^ 32 - 2 ^ 31.
Definition c_longlong (z : Z) : Z := (z + 2 ^ 63) mod 2 ^ 64 - 2 ^ 63.

(** A [c_char_p] read back in Python is [None] or a [bytes]. *)
Record StrOrErr := { str : option string; err : option string }.

(** The foreign functions with [restype = c_char_p]. *)
Inductive char_p_call : Type :=
| CreateClient (url key : string) (chainId apiKeyIndex accountIndex : Z)
| SwitchAPIKey (apiKeyIndex : Z).

(** The foreign functions with [restype = StrOrErr]. *)
Inductive struct_call : Type :=
| SignCreateOrder (marketIndex clientOrderIndex baseAmount price isAsk
                   orderType timeInForce reduceOnly triggerPrice
                   orderExpiry nonce : Z)
| SignCancelOrder (marketIndex orderIndex nonce : Z)
| SignCancelAllOrders (timeInForce scheduledTime nonce : Z)
| CreateAuthToken (deadline : Z).

Inductive lib_call : Type :=
| CharP (c : char_p_call)
| Struct (c : struct_call).

Coercion CharP : char_p_call >-> lib_call.
Coercion Struct : struct_call >-> lib_call.

(** The loaded shared library: a state [B] and what each call answers. *)
Class SignerLib (B : Type) := {
  lib_char_p : char_p_call -> B -> option string * B;
  lib_struct : struct_call -> B -> StrOrErr * B
}.

(** ** The registry *)

(** A value of [_CLIENT_CONFIG]: the dict built at lines 111-116.  The two
    strings are stored as they came; the two numbers went through [int]. *)
Record ClientConfig := {
  baseUrl : json;
  privateKey : json;
  chainId : Z;
  accountIndex : Z
}.

Record world (B : Type) := World {
  _CLIENT_CONFIG : gmap Z ClientConfig;
  _INITIALISED_KEYS : gset Z;
  LIB : B;
  calls : list lib_call
}.
Arguments World {B}.
Arguments _CLIENT_CONFIG {B}.
Arguments _INITIALISED_KEYS {B}.
Arguments LIB {B}.
Arguments calls {B}.

Definition fresh {B} (b : B) : world B := World ∅ ∅ b [].

(** ** Pure Python operations *)

(** Truthiness of an optional [bytes]: [None] and [b""] are false. *)
Definition truthy (p : option string) : option string :=
  match p with
  | Some "" => None
  | Some s => Some s
  | None => None
  end.

Definition int_of_float (f : spec_float) : exn + Z :=
  match f with
  | S754_zero _ => inr 0
  | S754_infinity _ => inl (OverflowError (JFloat f))
  | S754_nan => inl (ValueError (JFloat f))
  | S754_finite s m e =>
      let a := Z.shiftl (Z.pos m) e in inr (if s then - a else a)
  end.

Definition has_key (d : dict) (k : string) : bool := bool_decide (is_Some (d !! k)).

(** [k in params].  A handler reaches it only after [params["apiKeyIndex"]]
    has succeeded, that is, on a dict. *)
Definition contains (params : json) (k : string) : bool :=
  match params with
  | JObj m => has_key m k
  | _ => false
  end.

(** [params[k]]: only a dict can be indexed by a [str]. *)
Definition getitem (params : json) (k : string) : exn + json :=
  match params with
  | JObj m =>
      match m !! k with
      | Some v => inr v
      | None => inl (KeyError k)
      end
  | _ => inl (TypeError params)
  end.

(** [d.get(k, default)] on a dict. *)
Definition dict_get (d : dict) (k : string) (default : json) : json :=
  match d !! k with
  | Some v => v
  | None => default
  end.

(** [d.setdefault(k, v)], for its effect on [d]. *)
Definition setdefault (d : dict) (k : string) (v : json) : dict :=
  match d !! k with
  | Some _ => d
  | None => <[k := v]> d
  end.

Definition hashable (v : json) : bool :=
  match v with
  | JArr _ | JObj _ => false
  | _ => true
  end.

(** One stripped line of standard input, as [json.loads] sees it: empty,
    rejected with a [JSONDecodeError] whose text is [detail], parsed, or
    rejected with an exception that is no [JSONDecodeError]: the plain
    [ValueError] of an integer of more digits than [int] converts, the
    [RecursionError] of a nesting too deep. *)
Inductive line : Type :=
| Blank
| Malformed (detail : string)
| Parsed (request : json)
| Unparsable (e : exn).

(** What one turn of the loop of [main] does with its line. *)
Inductive outcome : Type :=
| Skip
| Emit (response : dict)
| Crash (e : exn).

Inductive exit_status : Type :=
| Finished
| Crashed (e : exn).

Section Bridge.
Context `{PyRuntime} {B : Type} `{SignerLib B}.

(** [int(v)]. *)
Definition int (v : json) : exn + Z :=
  match v with
  | JInt z => inr z
  | JBool b => inr (if b then 1 else 0)
  | JFloat f => int_of_float f
  | JStr s =>
      match int_of_str s with
      | Some z => inr z
      | None => inl (ValueError v)
      end
  | JNull | JArr _ | JObj _ => inl (TypeError v)
  end.

(** [int(params[k])]. *)
Definition int_item (params : json) (k : string) : exn + Z :=
  match getitem params k with
  | inr v => int v
  | inl e => inl e
  end.

(** [v.encode("utf-8")]: only a [str] has the method. *)
Definition encode (v : json) : exn + string :=
  match v with
  | JStr s =>
      match encode_utf8 s with
      | Some b => inr b
      | None => inl (UnicodeEncodeError s)
      end
  | _ => inl (AttributeError v "encode")
  end.

(** [str(exc)]. *)
Definition str_exn (e : exn) : string :=
  match e with
  | KeyError k => "'" +:+ k +:+ "'"
  | _ => exn_message e
  end.

(** [f"{v}"]. *)
Definition format (v : json) : string :=
  match v with
  | JNull => "None"
  | JBool true => "True"
  | JBool false => "False"
  | JInt z => pretty z
  | JStr s => s
  | JFloat _ | JArr _ | JObj _ => py_repr v
  end.

Definition _unwrap (result : StrOrErr) : dict :=
  match truthy (err result) with
  | Some e => {[ "error" := JStr (decode_utf8 e) ]}
  | None =>
      match truthy (str result) with
      | Some s => {[ "result" := JStr (decode_utf8 s) ]}
      | None => {[ "result" := JNull ]}
      end
  end.

Definition _maybe_error (ptr : option string) : dict :=
  match truthy ptr with
  | Some e => {[ "error" := JStr (decode_utf8 e) ]}
  | None => {[ "result" := JStr "ok" ]}
  end.

(** *** Code that reads or writes the globals or calls the library *)

Definition M (A : Type) : Type := world B -> (exn + A) * world B.

Definition ret {A} (a : A) : M A := fun w => (inr a, w).

Definition lift {A} (r : exn + A) : M A := fun w => (r, w).

Definition bind {A C} (m : M A) (k : A -> M C) : M C :=
  fun w =>
    match m w with
    | (inr a, w') => k a w'
    | (inl e, w') => (inl e, w')
    end.

Notation "x <- m ;; k" := (bind m (fun x => k))
  (at level 100, m at next level, right associativity).
Notation "m ;;; k" := (bind m (fun _ => k))
  (at level 100, right associativity).

Definition get_config (i : Z) : M (option ClientConfig) :=
  fun w => (inr (_CLIENT_CONFIG w !! i), w).

Definition set_config (i : Z) (c : ClientConfig) : M unit :=
  fun w => (inr tt, World (<[i := c]> (_CLIENT_CONFIG w)) (_INITIALISED_KEYS w)
                          (LIB w) (calls w)).

Definition is_initialised (i : Z) : M bool :=
  fun w => (inr (bool_decide (i ∈ _INITIALISED_KEYS w)), w).

Definition add_initialised (i : Z) : M unit :=
  fun w => (inr tt, World (_CLIENT_CONFIG w) ({[ i ]} ∪ _INITIALISED_KEYS w)
                          (LIB w) (calls w)).

Definition call_char_p (c : char_p_call) : M (option string) :=
  fun w =>
    let r := lib_char_p c (LIB w) in
    (inr r.1, World (_CLIENT_CONFIG w) (_INITIALISED_KEYS w) r.2 (calls w ++ [CharP c])).

Definition call_struct (c : struct_call) : M StrOrErr :=
  fun w =>
    let r := lib_struct c (LIB w) in
    (inr r.1, World (_CLIENT_CONFIG w) (_INITIALISED_KEYS w) r.2 (calls w ++ [Struct c])).

Definition _ensure_client (params : json) : M dict :=
  api_key_index <- lift (int_item params "apiKeyIndex") ;;
  config <- get_config api_key_index ;;
  config <- (if contains params "baseUrl" && contains params "privateKey" then
               url <- lift (getitem params "baseUrl") ;;
               key <- lift (getitem params "privateKey") ;;
               chain <- lift (int_item params "chainId") ;;
               account <- lift (int_item params "accountIndex") ;;
               let config := Build_ClientConfig url key chain account in
               set_config api_key_index config ;;;
               ret (Some config)
             else ret config) ;;
  match config with
  | None => ret {[ "error" := JStr "client_not_initialized" ]}
  | Some config =>
      initialised <- is_initialised api_key_index ;;
      if initialised then ret {[ "result" := JStr "ok" ]} else
      url <- lift (encode (baseUrl config)) ;;
      key <- lift (encode (privateKey config)) ;;
      err_ptr <- call_char_p (CreateClient url key (c_int (chainId config))
                                (c_int api_key_index)
                                (c_longlong (accountIndex config))) ;;
      let outcome := _maybe_error err_ptr in
      if has_key outcome "error" then ret outcome else
      add_initialised api_key_index ;;;
      ret {[ "result" := JStr "ok" ]}
  end.

Definition _switch_api_key (api_key_index : Z) : M dict :=
  err_ptr <- call_char_p (SwitchAPIKey (c_int api_key_index)) ;;
  ret (_maybe_error err_ptr).

Definition handle_create_client (params : json) : M dict :=
  _ensure_client params.

Definition handle_sign_create_order (params : json) : M dict :=
  ensure <- _ensure_client params ;;
  if has_key ensure "error" then ret ensure else
  api_key_index <- lift (int_item params "apiKeyIndex") ;;
  switched <- _switch_api_key api_key_index ;;
  if has_key switched "error" then ret switched else
  expiry <- lift (int_item params "orderExpiry") ;;
  marketIndex <- lift (int_item params "marketIndex") ;;
  clientOrderIndex <- lift (int_item params "clientOrderIndex") ;;
  baseAmount <- lift (int_item params "baseAmount") ;;
  price <- lift (int_item params "price") ;;
  isAsk <- lift (int_item params "isAsk") ;;
  orderType <- lift (int_item params "orderType") ;;
  timeInForce <- lift (int_item params "timeInForce") ;;
  reduceOnly <- lift (int_item params "reduceOnly") ;;
  triggerPrice <- lift (int_item params "triggerPrice") ;;
  nonce <- lift (int_item params "nonce") ;;
  result <- call_struct (SignCreateOrder (c_int marketIndex)
              (c_longlong clientOrderIndex) (c_longlong baseAmount)
              (c_int price) (c_int isAsk) (c_int orderType)
              (c_int timeInForce) (c_int reduceOnly) (c_int triggerPrice)
              (c_longlong expiry) (c_longlong nonce)) ;;
  ret (_unwrap result).

Definition handle_sign_cancel_order (params : json) : M dict :=
  ensure <- _ensure_client params ;;
  if has_key ensure "error" then ret ensure else
  api_key_index <- lift (int_item params "apiKeyIndex") ;;
  switched <- _switch_api_key api_key_index ;;
  if has_key switched "error" then ret switched else
  marketIndex <- lift (int_item params "marketIndex") ;;
  orderIndex <- lift (int_item params "orderIndex") ;;
  nonce <- lift (int_item params "nonce") ;;
  result <- call_struct (SignCancelOrder (c_int marketIndex)
              (c_longlong orderIndex) (c_longlong nonce)) ;;
  ret (_unwrap result).

Definition handle_sign_cancel_all (params : json) : M dict :=
  ensure <- _ensure_client params ;;
  if has_key ensure "error" then ret ensure else
  api_key_index <- lift (int_item params "apiKeyIndex") ;;
  switched <- _switch_api_key api_key_index ;;
  if has_key switched "error" then ret switched else
  timeInForce <- lift (int_item params "timeInForce") ;;
  scheduledTime <- lift (int_item params "scheduledTime") ;;
  nonce <- lift (int_item params "nonce") ;;
  result <- call_struct (SignCancelAllOrders (c_int timeInForce)
              (c_longlong scheduledTime) (c_longlong nonce)) ;;
  ret (_unwrap result).

Definition handle_create_auth_token (params : json) : M dict :=
  ensure <- _ensure_client params ;;
  if has_key ensure "error" then ret ensure else
  api_key_index <- lift (int_item params "apiKeyIndex") ;;
  switched <- _switch_api_key api_key_index ;;
  if has_key switched "error" then ret switched else
  deadlineMs <- lift (int_item params "deadlineMs") ;;
  result <- call_struct (CreateAuthToken (c_longlong deadlineMs)) ;;
  ret (_unwrap result).

Definition HANDLERS : gmap string (json -> M dict) :=
  <[ "create_client" := handle_create_client ]>
  (<[ "sign_create_order" := handle_sign_create_order ]>
  (<[ "sign_cancel_order" := handle_sign_cancel_order ]>
  (<[ "sign_cancel_all" := handle_sign_cancel_all ]>
  (<[ "create_auth_token" := handle_create_auth_token ]> ∅)))).

(** [HANDLERS.get(method)]: the key is hashed first, and a list or a dict
    cannot be; no other value than a [str] equals one of the keys. *)
Definition HANDLERS_get (method : json) : exn + option (json -> M dict) :=
  match method with
  | JStr s => inr (HANDLERS !! s)
  | JArr _ | JObj _ => inl (TypeError method)
  | JNull | JBool _ | JInt _ | JFloat _ => inr None
  end.

(** Lines 246-261: the body of the loop once [json.loads] has returned.
    [request.get] exists only on a dict. *)
Definition respond (request : json) (w : world B) : outcome * world B :=
  match request with
  | JObj fields =>
      let req_id := dict_get fields "id" JNull in
      let method := dict_get fields "method" JNull in
      let params := dict_get fields "params" (JObj ∅) in
      match HANDLERS_get method with
      | inl e => (Crash e, w)
      | inr None =>
          (Emit (<[ "id" := req_id ]>
                   {[ "error" := JStr ("unknown_method:" +:+ format method) ]}), w)
      | inr (Some handler) =>
          match handler params w with
          | (inr outcome, w') => (Emit (setdefault outcome "id" req_id), w')
          | (inl exc, w') =>
              (Emit (<[ "id" := req_id ]>
                       {[ "error" := JStr ("exception:" +:+ str_exn exc) ]}), w')
          end
      end
  | _ => (Crash (AttributeError request "get"), w)
  end.

(** Lines 237-261: one turn of the loop. *)
Definition turn (l : line) (w : world B) : outcome * world B :=
  match l with
  | Blank => (Skip, w)
  | Malformed detail =>
      (Emit (<[ "id" := JNull ]>
               {[ "error" := JStr ("invalid_json:" +:+ detail) ]}), w)
  | Parsed request => respond request w
  | Unparsable e => (Crash e, w)
  end.

(** [main]: what is printed, how the loop ends, and the world it leaves.  An
    exception that escapes a turn ends the process. *)
Fixpoint main (stdin : list line) (w : world B) : list dict * exit_status * world B :=
  match stdin with
  | [] => ([], Finished, w)
  | l :: rest =>
      match turn l w with
      | (Skip, w') => main rest w'
      | (Emit response, w') =>
          let '(out, st, w'') := main rest w' in (response :: out, st, w'')
      | (Crash e, w') => ([], Crashed e, w')
      end
  end.

(** *** The common shape of the four signing handlers

    Each of them evaluates the arguments of its foreign call from left to
    right, touching nothing, and then calls. *)

Notation "x <~ m ;; k" := (match m with inr x => k | inl e => inl e end)
  (at level 100, m at next level, right associativity).

Definition create_order_args (params : json) : exn + struct_call :=
  expiry <~ int_item params "orderExpiry" ;;
  marketIndex <~ int_item params "marketIndex" ;;
  clientOrderIndex <~ int_item params "clientOrderIndex" ;;
  baseAmount <~ int_item params "baseAmount" ;;
  price <~ int_item params "price" ;;
  isAsk <~ int_item params "isAsk" ;;
  orderType <~ int_item params "orderType" ;;
  timeInForce <~ int_item params "timeInForce" ;;
  reduceOnly <~ int_item params "reduceOnly" ;;
  triggerPrice <~ int_item params "triggerPrice" ;;
  nonce <~ int_item params "nonce" ;;
  inr (SignCreateOrder (c_int marketIndex)
         (c_longlong clientOrderIndex) (c_longlong baseAmount)
         (c_int price) (c_int isAsk) (c_int orderType)
         (c_int timeInForce) (c_int reduceOnly) (c_int triggerPrice)
         (c_longlong expiry) (c_longlong nonce)).

Definition cancel_order_args (params : json) : exn + struct_call :=
  marketIndex <~ int_item params "marketIndex" ;;
  orderIndex <~ int_item params "orderIndex" ;;
  nonce <~ int_item params "nonce" ;;
  inr (SignCancelOrder (c_int marketIndex) (c_longlong orderIndex) (c_longlong nonce)).

Definition cancel_all_args (params : json) : exn + struct_call :=
  timeInForce <~ int_item params "timeInForce" ;;
  scheduledTime <~ int_item params "scheduledTime" ;;
  nonce <~ int_item params "nonce" ;;
  inr (SignCancelAllOrders (c_int timeInForce) (c_longlong scheduledTime)
         (c_longlong nonce)).

Definition auth_token_args (params : json) : exn + struct_call :=
  deadlineMs <~ int_item params "deadlineMs" ;;
  inr (CreateAuthToken (c_longlong deadlineMs)).

Definition sign_flow (args : json → exn + struct_call) (params : json) : M dict :=
  ensure <- _ensure_client params ;;
  if has_key ensure "error" then ret ensure else
  api_key_index <- lift (int_item params "apiKeyIndex") ;;
  switched <- _switch_api_key api_key_index ;;
  if has_key switched "error" then ret switched else
  c <- lift (args params) ;;
  result <- call_struct c ;;
  ret (_unwrap result).

(** The world once the library has answered the signing call [c]. *)
Definition signed (c : struct_call) (w : world B) : world B :=
  World (_CLIENT_CONFIG w) (_INITIALISED_KEYS w) (lib_struct c (LIB w)).2
        (calls w ++ [Struct c]).

(** The four methods that sign; [create_client] is the fifth key of
    [HANDLERS]. *)
Definition signing_methods : list string :=
  ["sign_create_order"; "sign_cancel_order"; "sign_cancel_all"; "create_auth_token"].

(** The method a foreign signing call belongs to. *)
Definition method_of (c : struct_call) : string :=
  match c with
  | SignCreateOrder _ _ _ _ _ _ _ _ _ _ _ => "sign_create_order"
  | SignCancelOrder _ _ _ => "sign_cancel_order"
  | SignCancelAllOrders _ _ _ => "sign_cancel_all"
  | CreateAuthToken _ => "create_auth_token"
  end.

(** Every initialised key has a stored configuration. *)
Definition registry_ok (w : world B) : Prop :=
  ∀ i, i ∈ _INITIALISED_KEYS w → is_Some (_CLIENT_CONFIG w !! i).

(** The shape of a response: an id, and either a result (a string or null)
    or an error (a string). *)
Definition well_shaped (response : dict) : Prop :=
  is_Some (response !! "id") ∧
  ((response !! "error" = None ∧
    (response !! "result" = Some JNull ∨ ∃ s, response !! "result" = Some (JStr s))) ∨
   (response !! "result" = None ∧ ∃ s, response !! "error" = Some (JStr s))).

(** *** What a call of [_ensure_client] can do

    [staged params i w cfg w1]: after lines 109-117 the configuration in
    hand for key [i] is [cfg] and the world is [w1]. *)

Definition inline (params : json) : bool :=
  contains params "baseUrl" && contains params "privateKey".

Definition upsert (i : Z) (cfg : ClientConfig) (w : world B) : world B :=
  World (<[i := cfg]> (_CLIENT_CONFIG w)) (_INITIALISED_KEYS w) (LIB w) (calls w).

Definition create_call (i : Z) (cfg : ClientConfig) (url key : string) : char_p_call :=
  CreateClient url key (c_int (chainId cfg)) (c_int i) (c_longlong (accountIndex cfg)).

(** The world once the library has answered [c]. *)
Definition answered (c : char_p_call) (keys : gset Z) (w : world B) : world B :=
  World (_CLIENT_CONFIG w) keys (lib_char_p c (LIB w)).2 (calls w ++ [CharP c]).

Inductive staged (params : json) (i : Z) (w : world B) : ClientConfig → world B → Prop :=
| staged_stored cfg :
    inline params = false →
    _CLIENT_CONFIG w !! i = Some cfg →
    staged params i w cfg w
| staged_inline u k c a :
    inline params = true →
    getitem params "baseUrl" = inr u →
    getitem params "privateKey" = inr k →
    int_item params "chainId" = inr c →
    int_item params "accountIndex" = inr a →
    staged params i w (Build_ClientConfig u k c a)
           (upsert i (Build_ClientConfig u k c a) w).

Inductive ensure_run (params : json) (w : world B) : exn + dict → world B → Prop :=
| ensure_bad_index e :
    int_item params "apiKeyIndex" = inl e →
    ensure_run params w (inl e) w
| ensure_bad_inline i e :
    int_item params "apiKeyIndex" = inr i →
    inline params = true →
    int_item params "chainId" = inl e ∨
    ((∃ c, int_item params "chainId" = inr c) ∧ int_item params "accountIndex" = inl e) →
    ensure_run params w (inl e) w
| ensure_missing i :
    int_item params "apiKeyIndex" = inr i →
    inline params = false →
    _CLIENT_CONFIG w !! i = None →
    ensure_run params w (inr {[ "error" := JStr "client_not_initialized" ]}) w
| ensure_known i cfg w1 :
    int_item params "apiKeyIndex" = inr i →
    staged params i w cfg w1 →
    i ∈ _INITIALISED_KEYS w →
    ensure_run params w (inr {[ "result" := JStr "ok" ]}) w1
| ensure_bad_string i cfg w1 e :
    int_item params "apiKeyIndex" = inr i →
    staged params i w cfg w1 →
    i ∉ _INITIALISED_KEYS w →
    encode (baseUrl cfg) = inl e ∨
    ((∃ url, encode (baseUrl cfg) = inr url) ∧ encode (privateKey cfg) = inl e) →
    ensure_run params w (inl e) w1
| ensure_refused i cfg w1 url key e :
    int_item params "apiKeyIndex" = inr i →
    staged params i w cfg w1 →
    i ∉ _INITIALISED_KEYS w →
    encode (baseUrl cfg) = inr url →
    encode (privateKey cfg) = inr key →
    truthy (lib_char_p (create_call i cfg url key) (LIB w1)).1 = Some e →
    ensure_run params w (inr {[ "error" := JStr (decode_utf8 e) ]})
               (answered (create_call i cfg url key) (_INITIALISED_KEYS w) w1)
| ensure_created i cfg w1 url key :
    int_item params "apiKeyIndex" = inr i →
    staged params i w cfg w1 →
    i ∉ _INITIALISED_KEYS w →
    encode (baseUrl cfg) = inr url →
    encode (privateKey cfg) = inr key →
    truthy (lib_char_p (create_call i cfg url key) (LIB w1)).1 = None →
    ensure_run params w (inr {[ "result" := JStr "ok" ]})
               (answered (create_call i cfg url key) ({[ i ]} ∪ _INITIALISED_KEYS w) w1).

Inductive sign_run (args : json → exn + struct_call) (params : json) (w : world B) :
  exn + dict → world B → Prop :=
| sign_ensure_raised e w1 :
    ensure_run params w (inl e) w1 →
    sign_run args params w (inl e) w1
| sign_ensure_error d w1 :
    ensure_run params w (inr d) w1 →
    has_key d "error" = true →
    sign_run args params w (inr d) w1
| sign_switch_refused d w1 i e :
    ensure_run params w (inr d) w1 →
    has_key d "error" = false →
    int_item params "apiKeyIndex" = inr i →
    truthy (lib_char_p (SwitchAPIKey (c_int i)) (LIB w1)).1 = Some e →
    sign_run args params w (inr {[ "error" := JStr (decode_utf8 e) ]})
             (answered (SwitchAPIKey (c_int i)) (_INITIALISED_KEYS w1) w1)
| sign_bad_args d w1 i e :
    ensure_run params w (inr d) w1 →
    has_key d "error" = false →
    int_item params "apiKeyIndex" = inr i →
    truthy (lib_char_p (SwitchAPIKey (c_int i)) (LIB w1)).1 = None →
    args params = inl e →
    sign_run args params w (inl e)
             (answered (SwitchAPIKey (c_int i)) (_INITIALISED_KEYS w1) w1)
| sign_signed d w1 i c :
    ensure_run params w (inr d) w1 →
    has_key d "error" = false →
    int_item params "apiKeyIndex" = inr i →
    truthy (lib_char_p (SwitchAPIKey (c_int i)) (LIB w1)).1 = None →
    args params = inr c →
    let w2 := answered (SwitchAPIKey (c_int i)) (_INITIALISED_KEYS w1) w1 in
    sign_run args params w (inr (_unwrap (lib_struct c (LIB w2)).1)) (signed c w2).

(** What a handler returns: one key, [error] with a string, or [result]
    with a string or [None]. *)
Definition outcome_shape (d : dict) : Prop :=
  (∃ s, d = {[ "error" := JStr s ]}) ∨
  d = {[ "result" := JNull ]} ∨
  (∃ s, d = {[ "result" := JStr s ]}).

End Bridge.

(** ** An id on the wire *)

(** A JSON scalar as a request writes it: [null], [true] or [false], a
    number written with digits only, a number written with a fraction or an
    exponent (its sign, its digits without the point, and the power of ten
    that goes with them: [1.5e3] is [SDecimal false 15 2]), or a string (the
    text it denotes). *)
Inductive scalar : Type :=
| SNull
| SBool (b : bool)
| SInteger (z : Z)
| SDecimal (negative : bool) (digits : N) (exponent : Z)
| SString (s : string).

(** [float(text)] on such a number: the nearest double, ties to even, and an
    infinity beyond the range of the doubles. *)
Definition float_of_decimal (negative : bool) (digits : N) (exponent : Z) : spec_float :=
  match digits with
  | N0 => S754_zero negative
  | Npos m =>
      if Z.leb 0 exponent then
        binary_round 53 1024 negative (Z.to_pos (Z.pos m * 10 ^ exponent)) 0
      else
        SFdiv 53 1024 (S754_finite negative m 0)
              (S754_finite false (Z.to_pos (10 ^ (- exponent))) 0)
  end.

(** [json.loads] on a scalar: [int] for digits only, [float] otherwise. *)
Definition loads_scalar (x : scalar) : json :=
  match x with
  | SNull => JNull
  | SBool b => JBool b
  | SInteger z => JInt z
  | SDecimal negative digits exponent => JFloat (float_of_decimal negative digits exponent)
  | SString s => JStr s
  end.

(** What [json.dumps] writes for a scalar: [PFloat f] is the [repr] of a
    finite float, the shortest decimal that reads back as [f]; the last
    three are the words [Infinity], [-Infinity] and [NaN]. *)
Inductive printed : Type :=
| PNull
| PBool (b : bool)
| PInteger (z : Z)
| PString (s : string)
| PFloat (f : spec_float)
| PInfinity
| PNegInfinity
| PNaN.

Definition dumps_float (f : spec_float) : printed :=
  match f with
  | S754_infinity false => PInfinity
  | S754_infinity true => PNegInfinity
  | S754_nan => PNaN
  | _ => PFloat f
  end.

(** [json.dumps] on a value that is no list and no dict. *)
Definition dumps_scalar (v : json) : option printed :=
  match v with
  | JNull => Some PNull
  | JBool b => Some (PBool b)
  | JInt z => Some (PInteger z)
  | JStr s => Some (PString s)
  | JFloat f => Some (dumps_float f)
  | JArr _ | JObj _ => None
  end.

(** JSON has no [Infinity] and no [NaN]. *)
Definition is_json (p : printed) : bool :=
  match p with
  | PInfinity | PNegInfinity | PNaN => false
  | _ => true
  end.

(** ** What the transport serves *)

Definition is_blank (l : line) : bool :=
  match l with
  | Blank => true
  | _ => false
  end.

(** The lines at which an exception escapes the loop: line 241 when
    [json.loads] raises anything but [JSONDecodeError], line 246 on a value
    that is no dict, line 250 on a method that cannot be hashed. *)
Definition fatal (l : line) : bool :=
  match l with
  | Unparsable _ => true
  | Parsed (JObj fields) =>
      match fields !! "method" with
      | Some (JArr _) | Some (JObj _) => true
      | _ => false
      end
  | Parsed _ => true
  | Blank | Malformed _ => false
  end.

(** The id of the request on the line, as [json.loads] gave it; [None] when
    the request has no id or the line is no request. *)
Definition line_id (l : line) : json :=
  match l with
  | Parsed (JObj fields) =>
      match fields !! "id" with
      | Some id => id
      | None => JNull
      end
  | _ => JNull
  end.

(** The lines the loop gets through: those before the first fatal one. *)
Fixpoint before_fatal (stdin : list line) : list line :=
  match stdin with
  | [] => []
  | l :: rest => if fatal l then [] else l :: before_fatal rest
  end.

(** ** The fields of a signing request *)

(** The params each signing handler reads once the key is switched, in the
    order it reads them (lines 159-171, 187-189, 205-207, 222). *)
Definition operation_fields (method : string) : list string :=
  if String.eqb method "sign_create_order" then
    ["orderExpiry"; "marketIndex"; "clientOrderIndex"; "baseAmount"; "price"; "isAsk";
     "orderType"; "timeInForce"; "reduceOnly"; "triggerPrice"; "nonce"]
  else if String.eqb method "sign_cancel_order" then
    ["marketIndex"; "orderIndex"; "nonce"]
  else if String.eqb method "sign_cancel_all" then
    ["timeInForce"; "scheduledTime"; "nonce"]
  else if String.eqb method "create_auth_token" then
    ["deadlineMs"]
  else [].

(** ** The call log *)

Definition is_switch (c : lib_call) : bool :=
  match c with
  | CharP (SwitchAPIKey _) => true
  | _ => false
  end.

(** Every signing call of the log comes right after a [SwitchAPIKey];
    [switched] tells whether the call before the log was one. *)
Fixpoint switch_precedes_sign (switched : bool) (log : list lib_call) : bool :=
  match log with
  | [] => true
  | Struct _ :: rest => switched && switch_precedes_sign false rest
  | c :: rest => switch_precedes_sign (is_switch c) rest
  end.

(** Whether the last call of the log is a [SwitchAPIKey]. *)
Definition last_is_switch (switched : bool) (log : list lib_call) : bool :=
  match last log with
  | Some c => is_switch c
  | None => switched
  end.

(** Lines 57-85: the C types declared for the arguments of each function. *)
Inductive ctype : Type := c_char_p_t | c_int_t | c_longlong_t.

Definition argtypes (c : lib_call) : list ctype :=
  match c with
  | CharP (CreateClient _ _ _ _ _) =>
      [c_char_p_t; c_char_p_t; c_int_t; c_int_t; c_longlong_t]
  | CharP (SwitchAPIKey _) => [c_int_t]
  | Struct (SignCreateOrder _ _ _ _ _ _ _ _ _ _ _) =>
      [c_int_t; c_longlong_t; c_longlong_t; c_int_t; c_int_t; c_int_t; c_int_t;
       c_int_t; c_int_t; c_longlong_t; c_longlong_t]
  | Struct (SignCancelOrder _ _ _) => [c_int_t; c_longlong_t; c_longlong_t]
  | Struct (SignCancelAllOrders _ _ _) => [c_int_t; c_longlong_t; c_longlong_t]
  | Struct (CreateAuthToken _) => [c_longlong_t]
  end.

(** The values a call passes, in the order of the C signature. *)
Definition arguments (c : lib_call) : list (string + Z) :=
  match c with
  | CharP (CreateClient url key chain api account) =>
      [inl url; inl key; inr chain; inr api; inr account]
  | CharP (SwitchAPIKey api) => [inr api]
  | Struct (SignCreateOrder a1 a2 a3 a4 a5 a6 a7 a8 a9 a10 a11) =>
      [inr a1; inr a2; inr a3; inr a4; inr a5; inr a6; inr a7; inr a8; inr a9;
       inr a10; inr a11]
  | Struct (SignCancelOrder a1 a2 a3) => [inr a1; inr a2; inr a3]
  | Struct (SignCancelAllOrders a1 a2 a3) => [inr a1; inr a2; inr a3]
  | Struct (CreateAuthToken a1) => [inr a1]
  end.

(** A value is one the C type can hold. *)
Definition fits (t : ctype) (v : string + Z) : Prop :=
  match t, v with
  | c_char_p_t, inl _ => True
  | c_int_t, inr z => - 2 ^ 31 ≤ z < 2 ^ 31
  | c_longlong_t, inr z => - 2 ^ 63 ≤ z < 2 ^ 63
  | _, _ => False
  end.

(** Every initialised key has been sent to the library in a [CreateClient]. *)
Definition announced {B} (w : world B) : Prop :=
  ∀ i, i ∈ _INITIALISED_KEYS w →
       ∃ url key chain account,
         CharP (CreateClient url key chain (c_int i) account) ∈ calls w.

(** ** Start-up: lines 18-54 *)

(** [needle in hay], for two [str]. *)
Fixpoint str_in (needle hay : string) : bool :=
  String.prefix needle hay ||
  match hay with
  | EmptyString => false
  | String _ rest => str_in needle rest
  end.

(** The exceptions of the start-up code.  [FileNotFoundError] is an
    [OSError]; [RuntimeError] is not, and neither is [MissingSymbol], the
    [AttributeError] of a function the library does not export. *)
Inductive startup_exn : Type :=
| RuntimeError (msg : string)
| FileNotFoundError (msg : string)
| OSError (msg : string)
| MissingSymbol (name : string).

(** What the script asks of the machine it runs on.  [E] is the state of
    the machine, [B] a loaded library. *)
Class Host (E B : Type) := {
  (** [platform.system()] *)
  platform_system : E → string;
  (** [platform.machine().lower()] *)
  platform_machine : E → string;
  (** The directory of line 20. *)
  signers_dir : E → string;
  (** [os.path.join(dir, name)] *)
  path_join : string → string → string;
  (** [os.path.exists(path)] *)
  path_exists : string → E → bool;
  (** [ctypes.CDLL(path)]: the library, or the text of the [OSError]. *)
  cdll : string → E → (string + B) * E;
  (** [subprocess.run(argv, check=False, capture_output=True)]: the text of
      the [OSError] when the program cannot be started. *)
  subprocess_run : list string → E → option string * E;
  (** Whether [getattr(LIB, name)] finds the symbol. *)
  exports : B → string → bool
}.

Inductive host_op : Type :=
| Cdll (path : string)
| Run (argv : list string).

(** The machine and the log of the library loads and the programs run. *)
Record host (E : Type) := Hosted { env : E; ops : list host_op }.
Arguments Hosted {E}.
Arguments env {E}.
Arguments ops {E}.

(** How the process ends. *)
Inductive script_end : Type :=
| Returned
| Exit1
| StartupTraceback (e : startup_exn)
| Traceback (e : exn).

Section Startup.
Context `{PyRuntime} {E B : Type} `{Host E B} `{SignerLib B}.

Definition _resolve_signer_path (e : E) : startup_exn + string :=
  let system := platform_system e in
  let machine := platform_machine e in
  let chosen :=
    if bool_decide (system = "Darwin") then
      inr (path_join (signers_dir e)
             (if bool_decide (machine = "arm64") then "signer-arm64.dylib"
              else "signer-amd64.dylib"))
    else if bool_decide (system = "Linux") then
      inr (path_join (signers_dir e) "signer-amd64.so")
    else
      inl (RuntimeError ("Unsupported platform: " +:+ system +:+ " " +:+ machine)) in
  match chosen with
  | inl e => inl e
  | inr path =>
      if path_exists path e then inr path
      else inl (FileNotFoundError ("Signer library missing: " +:+ path))
  end.

Definition do_cdll (path : string) (h : host E) : (string + B) * host E :=
  let r := cdll path (env h) in (r.1, Hosted r.2 (ops h ++ [Cdll path])).

Definition do_run (argv : list string) (h : host E) : option string * host E :=
  let r := subprocess_run argv (env h) in (r.1, Hosted r.2 (ops h ++ [Run argv])).

Definition xattr_argv (path : string) : list string :=
  ["/usr/bin/xattr"; "-d"; "com.apple.quarantine"; path].

Definition codesign_argv (path : string) : list string :=
  ["/usr/bin/codesign"; "--force"; "--sign"; "-"; path].

Definition _load_library (path : string) (h : host E) : (startup_exn + B) * host E :=
  match do_cdll path h with
  | (inr lib, h1) => (inr lib, h1)
  | (inl message, h1) =>
      if bool_decide (platform_system (env h1) = "Darwin") &&
         str_in "code signature" message
      then
        match do_run (xattr_argv path) h1 with
        | (Some failure, h2) => (inl (OSError failure), h2)
        | (None, h2) =>
            match do_run (codesign_argv path) h2 with
            | (Some failure, h3) => (inl (OSError failure), h3)
            | (None, h3) =>
                match do_cdll path h3 with
                | (inr lib, h4) => (inr lib, h4)
                | (inl again, h4) => (inl (OSError again), h4)
                end
            end
        end
      else (inl (OSError message), h1)
  end.

(** The functions lines 57-85 look up in the library, in that order. *)
Definition symbols : list string :=
  ["CreateClient"; "SwitchAPIKey"; "SignCreateOrder"; "SignCancelOrder";
   "SignCancelAllOrders"; "CreateAuthToken"].

(** Lines 48-85 and 264-265: the module from its first statement to the
    return of [main]. *)
Definition script (h : host E) (stdin : list line) : list dict * script_end * host E :=
  match _resolve_signer_path (env h) with
  | inl e => ([], StartupTraceback e, h)
  | inr SIGNER_PATH =>
      match _load_library SIGNER_PATH h with
      | (inl (OSError exc), h1) | (inl (FileNotFoundError exc), h1) =>
          ([ <[ "id" := JNull ]>
               {[ "error" := JStr ("failed_to_load_signer:" +:+ exc) ]} ], Exit1, h1)
      | (inl e, h1) => ([], StartupTraceback e, h1)
      | (inr lib, h1) =>
          match find (λ name, negb (exports lib name)) symbols with
          | Some name => ([], StartupTraceback (MissingSymbol name), h1)
          | None =>
              let '(out, st, _) := main stdin (fresh lib) in
              (out, match st with Finished => Returned | Crashed e => Traceback e end, h1)
          end
      end
  end.

End Startup.

(** ** The effect of a request on the world *)

Section Effects.
Context `{PyRuntime} {B : Type} `{SignerLib B}.

Definition call_fits (c : lib_call) : Prop := Forall2 fits (argtypes c) (arguments c).

(** What [_ensure_client] can have done to the world: stored a configuration
    for its key or not, and then called [CreateClient] for it or not, marking
    the key or not. *)
Definition ensure_effect (params : json) (w w' : world B) : Prop :=
  ∃ w1,
    (w1 = w ∨ ∃ i cfg, int_item params "apiKeyIndex" = inr i ∧ w1 = upsert i cfg w) ∧
    (w' = w1 ∨
     ∃ i cfg url key,
       int_item params "apiKeyIndex" = inr i ∧
       (w' = answered (create_call i cfg url key) (_INITIALISED_KEYS w1) w1 ∨
        w' = answered (create_call i cfg url key) ({[ i ]} ∪ _INITIALISED_KEYS w1) w1)).

(** What a handler can have done: what [_ensure_client] did, then possibly a
    [SwitchAPIKey], then possibly the signing call. *)
Definition handler_effect (params : json) (w w' : world B) : Prop :=
  ∃ w1,
    ensure_effect params w w1 ∧
    (w' = w1 ∨
     ∃ i, int_item params "apiKeyIndex" = inr i ∧
          let w2 := answered (SwitchAPIKey (c_int i)) (_INITIALISED_KEYS w1) w1 in
          w' = w2 ∨ ∃ c, call_fits (Struct c) ∧ w' = signed c w2).

End Effects.

(** ** A runtime and a library to run the bridge on

    [cpython] reads decimal strings as [int] does and keeps CPython's wording
    out of the messages; [scripted] is a library whose [c_char_p] functions
    answer from a script, one entry per call, and [None] once it is used up,
    and whose signing functions always sign. *)

Definition cpython : PyRuntime := {|
  int_of_str s := Z.of_int <$> NilZero.int_of_string s;
  py_repr _ := "<repr>";
  exn_message _ := "<message>";
  encode_utf8 s := Some s;
  decode_utf8 s := s
|}.

Definition scripted : SignerLib (list (option string)) := {|
  lib_char_p _ script := (hd None script, tl script);
  lib_struct _ script := ({| str := Some "0xsigned"; err := None |}, script)
|}.

Definition obj (items : list (string * json)) : json := JObj (list_to_map items).

Definition client_params : list (string * json) :=
  [("apiKeyIndex", JInt 0); ("baseUrl", JStr "https://x"); ("privateKey", JStr "0xabc");
   ("chainId", JInt 1); ("accountIndex", JInt 5)].

Definition client_config : ClientConfig :=
  Build_ClientConfig (JStr "https://x") (JStr "0xabc") 1 5.

(** [{"id":1,"method":"create_client","params":{...}}] *)
Definition create_request : list (string * json) :=
  [("id", JInt 1); ("method", JStr "create_client"); ("params", obj client_params)].

(** A cancel request for key [k]. *)
Definition cancel_params (k : Z) : list (string * json) :=
  [("apiKeyIndex", JInt k); ("marketIndex", JInt 1); ("orderIndex", JInt 7);
   ("nonce", JInt 42)].

Definition cancel_request (k : Z) : list (string * json) :=
  [("id", JInt 2); ("method", JStr "sign_cancel_order"); ("params", obj (cancel_params k))].

(** The same [create_client] params without [chainId]. *)
Definition partial_params : list (string * json) :=
  [("apiKeyIndex", JInt 0); ("baseUrl", JStr "https://x"); ("privateKey", JStr "0xabc");
   ("accountIndex", JInt 5)].

(** The world once key 0 is registered. *)
Definition registered : world (list (option string)) :=
  World {[ 0 := client_config ]} {[ 0 ]} [] [CharP (create_call 0 client_config "https://x" "0xabc")].

(** The world once a cancel for key 0 has been signed in [registered]. *)
Definition cancelled : world (list (option string)) :=
  World {[ 0 := client_config ]} {[ 0 ]} []
        [CharP (create_call 0 client_config "https://x" "0xabc");
         CharP (SwitchAPIKey 0); Struct (SignCancelOrder 1 7 42)].

(** The world once the library has refused to register key 0. *)
Definition refused : world (list (option string)) :=
  World {[ 0 := client_config ]} ∅ []
        [CharP (create_call 0 client_config "https://x" "0xabc")].

(** A machine to start the script on: its system and architecture, the
    files it has, and what the successive [ctypes.CDLL] calls answer. *)
Record machine := Machine {
  sys : string;
  arch : string;
  files : list string;
  loads : list (string + list (option string))
}.

Definition laptop : Host machine (list (option string)) := {|
  platform_system := sys;
  platform_machine := arch;
  signers_dir _ := "/repo/docs/lighter/lighter-python-main/lighter/signers";
  path_join dir name := dir +:+ "/" +:+ name;
  path_exists path m := bool_decide (path ∈ files m);
  cdll _ m := (hd (inl "cannot open shared object file") (loads m),
               Machine (sys m) (arch m) (files m) (tl (loads m)));
  subprocess_run _ m := (None, m);
  exports _ _ := true
|}.

Definition arm64_dylib : string :=
  "/repo/docs/lighter/lighter-python-main/lighter/signers/signer-arm64.dylib".

(** A cancel request that lacks [orderIndex] and [nonce]. *)
Definition short_cancel_params : list (string * json) :=
  [("apiKeyIndex", JInt 0); ("marketIndex", JInt 1)].

Section BridgeFacts.
Context `{PyRuntime} {B : Type} `{SignerLib B}.

Abbreviation M := (@M B).
Implicit Types (w : world B) (params : json) (d : dict).

Notation "x <- m ;; k" := (bind m (fun x => k))
  (at level 100, m at next level, right associativity).
Notation "m ;;; k" := (bind m (fun _ => k))
  (at level 100, right associativity).

(** ** Stepping through the code *)

Lemma bind_inr {A C} (m : M A) (k : A -> M C) w a w1 :
  m w = (inr a, w1) → bind m k w = k a w1.
Proof. intros E. unfold bind. by rewrite E. Qed.

Lemma bind_inl {A C} (m : M A) (k : A -> M C) w e w1 :
  m w = (inl e, w1) → bind m k w = (inl e, w1).
Proof. intros E. unfold bind. by rewrite E. Qed.

Lemma has_key_true (d : dict) k : has_key d k = true ↔ is_Some (d !! k).
Proof. unfold has_key. by rewrite bool_decide_eq_true. Qed.

Lemma has_key_false (d : dict) k : has_key d k = false ↔ d !! k = None.
Proof. unfold has_key. rewrite bool_decide_eq_false. symmetry. apply eq_None_not_Some. Qed.

Lemma truthy_nonempty p e : truthy p = Some e → p = Some e ∧ e ≠ "".
Proof. destruct p as [[|]|]; simpl; intros [= <-]; done. Qed.

Lemma maybe_error_error ptr :
  has_key (_maybe_error ptr) "error" = true ↔ is_Some (truthy ptr).
Proof.
  unfold _maybe_error. destruct (truthy ptr); rewrite has_key_true.
  - rewrite lookup_singleton_eq. split; eauto.
  - rewrite lookup_singleton_ne by done. split; intros [? [=]].
Qed.

Lemma contains_getitem params k :
  contains params k = true → ∃ v, getitem params k = inr v.
Proof.
  destruct params; try discriminate. simpl.
  rewrite has_key_true. intros [v ->]. eauto.
Qed.

Lemma staged_frame params i w cfg w1 :
  staged params i w cfg w1 →
  _CLIENT_CONFIG w1 !! i = Some cfg ∧
  _INITIALISED_KEYS w1 = _INITIALISED_KEYS w ∧ LIB w1 = LIB w ∧ calls w1 = calls w.
Proof.
  destruct 1; simpl; [done|]. by rewrite lookup_insert_eq.
Qed.

Lemma bind_inv {A C} (m : M A) (k : A -> M C) w r w' :
  bind m k w = (r, w') →
  (∃ e, m w = (inl e, w') ∧ r = inl e) ∨
  (∃ a w1, m w = (inr a, w1) ∧ k a w1 = (r, w')).
Proof.
  unfold bind. destruct (m w) as [[e|a] w1]; intros E.
  - left. exists e. by simplify_eq.
  - right. eauto.
Qed.

Ltac subst_new :=
  repeat match goal with
         | H : _ = ?y |- _ => is_var y; subst y
         end.

Ltac prim E :=
  lazymatch type of E with
  | lift _ _ = _ => unfold lift in E
  | ret _ _ = _ => unfold ret in E
  | get_config _ _ = _ => unfold get_config in E
  | set_config _ _ _ = _ => unfold set_config in E
  | is_initialised _ _ = _ => unfold is_initialised in E
  | add_initialised _ _ = _ => unfold add_initialised in E
  | call_char_p _ _ = _ => unfold call_char_p in E
  | call_struct _ _ = _ => unfold call_struct in E
  | _ => fail "not a primitive"
  end;
  cbv beta zeta in E; first [discriminate E | injection E as ? ?; subst_new].

Ltac step E :=
  let E1 := fresh "E" in
  let Er := fresh "E" in
  apply bind_inv in E as [(? & E1 & Er)|(? & ? & E1 & E)];
  [first [discriminate Er
         | match type of Er with ?v = _ => is_var v; subst v end
         | injection Er as Er; subst_new]|];
  try prim E1.

Lemma ensure_tail params i w cfg w1 r w' :
  int_item params "apiKeyIndex" = inr i →
  staged params i w cfg w1 →
  (initialised <- is_initialised i ;;
   if initialised then ret {[ "result" := JStr "ok" ]} else
   url <- lift (encode (baseUrl cfg)) ;;
   key <- lift (encode (privateKey cfg)) ;;
   err_ptr <- call_char_p (create_call i cfg url key) ;;
   let outcome := _maybe_error err_ptr in
   if has_key outcome "error" then ret outcome else
   add_initialised i ;;;
   ret {[ "result" := JStr "ok" ]}) w1 = (r, w') →
  ensure_run params w r w'.
Proof.
  intros Ei St E. destruct (staged_frame _ _ _ _ _ St) as (_ & Ek & El & Ec).
  step E. case_bool_decide as Hin.
  { prim E. eapply ensure_known; eauto. by rewrite <- Ek. }
  rewrite Ek in Hin.
  step E. { eapply ensure_bad_string; eauto. }
  step E. { eapply ensure_bad_string; eauto. }
  step E. cbv zeta in E.
  destruct (has_key _ "error") eqn:Eh.
  - prim E. apply maybe_error_error in Eh as [e Ee].
    unfold _maybe_error. rewrite Ee, Ek. by eapply ensure_refused.
  - assert (truthy (lib_char_p (create_call i cfg x x0) (LIB w1)).1 = None) as Ee.
    { destruct (truthy _) eqn:Et; [|done].
      rewrite (proj2 (maybe_error_error _)) in Eh; [done|]. rewrite Et; eauto. }
    step E. prim E. simpl. rewrite Ek. by eapply ensure_created.
Qed.

(** [_ensure_client] does one of the seven things of [ensure_run]. *)
Lemma ensure_client_run params w r w' :
  _ensure_client params w = (r, w') → ensure_run params w r w'.
Proof.
  unfold _ensure_client. intros E.
  step E. { by constructor. }
  step E.
  fold (inline params) in E.
  destruct (inline params) eqn:Einl.
  - apply andb_true_iff in Einl as Hc.
    destruct Hc as [[u Hu]%contains_getitem [k Hk]%contains_getitem].
    step E.
    + step E0; [congruence|]. step E0; [congruence|].
      step E0. { eapply ensure_bad_inline; eauto. }
      step E0. { eapply ensure_bad_inline; eauto. }
      step E0. prim E0.
    + step E0. step E0. step E0. step E0. step E0. prim E0.
      eapply ensure_tail; [done| |exact E]. by constructor.
  - step E. destruct (_CLIENT_CONFIG _ !! _) as [cfg|] eqn:Ecfg.
    + eapply ensure_tail; [done| |exact E]. by constructor.
    + prim E. by eapply ensure_missing.
Qed.

Lemma ensure_returned_index params w d w1 :
  ensure_run params w (inr d) w1 → ∃ i, int_item params "apiKeyIndex" = inr i.
Proof. inversion 1; eauto. Qed.

Lemma switch_api_key_run i w :
  _switch_api_key i w =
  (inr (_maybe_error (lib_char_p (SwitchAPIKey (c_int i)) (LIB w)).1),
   answered (SwitchAPIKey (c_int i)) (_INITIALISED_KEYS w) w).
Proof. reflexivity. Qed.

Lemma maybe_error_cases ptr :
  (∃ e, truthy ptr = Some e ∧ _maybe_error ptr = {[ "error" := JStr (decode_utf8 e) ]} ∧
        has_key (_maybe_error ptr) "error" = true) ∨
  (truthy ptr = None ∧ _maybe_error ptr = {[ "result" := JStr "ok" ]} ∧
   has_key (_maybe_error ptr) "error" = false).
Proof.
  unfold _maybe_error. destruct (truthy ptr) as [e|]; [left; exists e|right];
    (split; [done|split; [done|]]).
  - apply has_key_true. by rewrite lookup_singleton_eq.
  - apply has_key_false. by rewrite lookup_singleton_ne.
Qed.

(** [sign_flow] does one of the five things of [sign_run]. *)
Lemma sign_flow_run args params w r w' :
  sign_flow args params w = (r, w') → sign_run args params w r w'.
Proof.
  unfold sign_flow. intros E.
  step E. { apply ensure_client_run in E0. by constructor. }
  apply ensure_client_run in E0.
  destruct (has_key x "error") eqn:Eerr.
  { prim E. by eapply sign_ensure_error. }
  destruct (ensure_returned_index _ _ _ _ E0) as [i Ei].
  step E; [congruence|]. assert (x1 = i) as -> by congruence.
  rewrite (bind_inr _ _ _ _ _ (switch_api_key_run _ _)) in E.
  destruct (maybe_error_cases (lib_char_p (SwitchAPIKey (c_int i)) (LIB x0)).1)
    as [(e & Et & Em & Eh)|(Et & Em & Eh)]; rewrite Eh, ?Em in E.
  { prim E. by eapply sign_switch_refused. }
  step E. { by eapply sign_bad_args. }
  step E. prim E. by eapply sign_signed.
Qed.

Ltac same_flow :=
  intros; unfold sign_flow, bind, lift;
  repeat match goal with
         | |- context [_ensure_client ?p ?w] => destruct (_ensure_client p w) as [[?|?] ?]
         | |- context [_switch_api_key ?i ?w] => destruct (_switch_api_key i w) as [[?|?] ?]
         | |- context [has_key ?d ?k] => destruct (has_key d k)
         | |- context [int_item ?p ?k] => destruct (int_item p k)
         end; reflexivity.

Lemma handle_sign_create_order_flow params w :
  handle_sign_create_order params w = sign_flow create_order_args params w.
Proof. unfold handle_sign_create_order, create_order_args. same_flow. Qed.

Lemma handle_sign_cancel_order_flow params w :
  handle_sign_cancel_order params w = sign_flow cancel_order_args params w.
Proof. unfold handle_sign_cancel_order, cancel_order_args. same_flow. Qed.

Lemma handle_sign_cancel_all_flow params w :
  handle_sign_cancel_all params w = sign_flow cancel_all_args params w.
Proof. unfold handle_sign_cancel_all, cancel_all_args. same_flow. Qed.

Lemma handle_create_auth_token_flow params w :
  handle_create_auth_token params w = sign_flow auth_token_args params w.
Proof. unfold handle_create_auth_token, auth_token_args. same_flow. Qed.

(** *** The dispatch table *)

Lemma handlers_lookup (method : string) (handler : json → M dict) :
  HANDLERS !! method = Some handler →
  (method = "create_client" ∧ handler = handle_create_client) ∨
  (method = "sign_create_order" ∧ handler = handle_sign_create_order) ∨
  (method = "sign_cancel_order" ∧ handler = handle_sign_cancel_order) ∨
  (method = "sign_cancel_all" ∧ handler = handle_sign_cancel_all) ∨
  (method = "create_auth_token" ∧ handler = handle_create_auth_token).
Proof.
  unfold HANDLERS. rewrite !lookup_insert, lookup_empty.
  repeat case_decide; intros; simplify_eq; tauto.
Qed.

Lemma handlers_unknown method :
  method ∉ "create_client" :: signing_methods → HANDLERS !! method = None.
Proof.
  intros Hn. destruct (HANDLERS !! method) as [h|] eqn:E; [|done].
  exfalso. apply Hn. unfold signing_methods.
  apply handlers_lookup in E as [[-> _]|[[-> _]|[[-> _]|[[-> _]|[-> _]]]]];
    set_solver.
Qed.

(** Every handler is [_ensure_client] itself or a [sign_flow]. *)
Lemma handler_cases (method : string) (handler : json → M dict) :
  HANDLERS !! method = Some handler →
  (method = "create_client" ∧ ∀ params w, handler params w = _ensure_client params w) ∨
  (method ∈ signing_methods ∧
   ∃ args, (∀ params w, handler params w = sign_flow args params w) ∧
           (∀ params c, args params = inr c → method_of c = method)).
Proof.
  intros [[-> ->]|[[-> ->]|[[-> ->]|[[-> ->]|[-> ->]]]]]%handlers_lookup.
  - by left.
  - right. split; [set_solver|]. exists create_order_args.
    split; [apply handle_sign_create_order_flow|].
    intros params c. unfold create_order_args.
    repeat destruct (int_item params _); intros; by simplify_eq.
  - right. split; [set_solver|]. exists cancel_order_args.
    split; [apply handle_sign_cancel_order_flow|].
    intros params c. unfold cancel_order_args.
    repeat destruct (int_item params _); intros; by simplify_eq.
  - right. split; [set_solver|]. exists cancel_all_args.
    split; [apply handle_sign_cancel_all_flow|].
    intros params c. unfold cancel_all_args.
    repeat destruct (int_item params _); intros; by simplify_eq.
  - right. split; [set_solver|]. exists auth_token_args.
    split; [apply handle_create_auth_token_flow|].
    intros params c. unfold auth_token_args.
    repeat destruct (int_item params _); intros; by simplify_eq.
Qed.

(** ** The registry and the signing handlers *)

Lemma create_client_not_signing : "create_client" ∉ signing_methods.
Proof. by apply (bool_decide_unpack _). Qed.

Lemma staged_inv_missing params i w cfg w1 :
  staged params i w cfg w1 → inline params = false → _CLIENT_CONFIG w !! i = None → False.
Proof. destruct 1; congruence. Qed.

Lemma ensure_run_missing params i w r w1 :
  int_item params "apiKeyIndex" = inr i →
  _CLIENT_CONFIG w !! i = None →
  inline params = false →
  ensure_run params w r w1 →
  r = inr {[ "error" := JStr "client_not_initialized" ]} ∧ w1 = w.
Proof.
  intros Ei Ec Einl Run. inversion Run; subst; try congruence; try done;
    assert (i0 = i) as -> by congruence;
    by destruct (staged_inv_missing _ _ _ _ _ ltac:(eassumption) Einl Ec).
Qed.

(** C4.  A signing or auth request for a key that has no stored
    configuration, and whose params do not carry both [baseUrl] and
    [privateKey], returns the error [client_not_initialized]; the world is
    the one it started in, so no foreign function was called: the call log
    and the state of the library are untouched, and so is the registry. *)
Theorem missing_configuration_no_backend_call
    (method : string) (handler : json → M dict) (params : json) (i : Z) (w : world B) :
  method ∈ signing_methods →
  HANDLERS !! method = Some handler →
  int_item params "apiKeyIndex" = inr i →
  _CLIENT_CONFIG w !! i = None →
  contains params "baseUrl" && contains params "privateKey" = false →
  handler params w = (inr {[ "error" := JStr "client_not_initialized" ]}, w).
Proof.
  intros Hm Hh Ei Ec Einl.
  apply handler_cases in Hh as [[-> _]|(_ & args & -> & _)].
  { by apply create_client_not_signing in Hm. }
  destruct (sign_flow args params w) as [r w'] eqn:E.
  apply sign_flow_run in E.
  inversion E as [e w1 Run|d w1 Run Herr|d w1 j e Run Herr|d w1 j e Run Herr|d w1 j c Run Herr];
    subst; destruct (ensure_run_missing _ _ _ _ _ Ei Ec Einl Run) as [Er ->];
    try discriminate Er; simplify_eq; try done.
Qed.

Lemma dict_get_some (d : dict) k v default : d !! k = Some v → dict_get d k default = v.
Proof. unfold dict_get. by intros ->. Qed.

Lemma int_item_missing p k : p !! k = None → int_item (JObj p) k = inl (KeyError k).
Proof. intros E. unfold int_item. simpl. by rewrite E. Qed.

Lemma ensure_run_incomplete p w r w1 :
  p !! "apiKeyIndex" = None ∨
  (is_Some (p !! "baseUrl") ∧ is_Some (p !! "privateKey") ∧
   (p !! "chainId" = None ∨ p !! "accountIndex" = None)) →
  ensure_run (JObj p) w r w1 →
  w1 = w ∧ ∃ e, r = inl e.
Proof.
  intros Hyp Run.
  assert (∀ i, int_item (JObj p) "apiKeyIndex" = inr i →
               inline (JObj p) = true ∧
               ∀ c a, int_item (JObj p) "chainId" = inr c →
                      int_item (JObj p) "accountIndex" = inr a → False) as Stuck.
  { intros i Ei. destruct Hyp as [Ha|(Hu & Hk & Hc)].
    { rewrite (int_item_missing _ _ Ha) in Ei. discriminate. }
    split.
    - unfold inline. simpl. by rewrite !(proj2 (has_key_true _ _)).
    - intros c a Ec Ea.
      destruct Hc as [Hc|Hc]; rewrite (int_item_missing _ _ Hc) in *; discriminate. }
  inversion Run as [| |i Ei Einl|i cfg w2 Ei St|i cfg w2 e Ei St|i cfg w2 url key e Ei St
                    |i cfg w2 url key Ei St]; subst; eauto;
    destruct (Stuck _ Ei) as [Einl' Hints]; try congruence;
    destruct St; try congruence; by destruct (Hints c a).
Qed.

(** C10.  A request for one of the five handlers whose params lack
    [apiKeyIndex], or carry [baseUrl] and [privateKey] without [chainId] or
    without [accountIndex], makes the handler raise; the world at the raise is
    the world before the request (no configuration stored, no key marked, no
    foreign call), and the response is an [exception:] error with the id of
    the request. *)
Theorem incomplete_params_raise_before_any_effect
    (method : string) (handler : json → M dict) (fields p : dict) (w : world B) :
  fields !! "method" = Some (JStr method) →
  HANDLERS !! method = Some handler →
  dict_get fields "params" (JObj ∅) = JObj p →
  p !! "apiKeyIndex" = None ∨
  (is_Some (p !! "baseUrl") ∧ is_Some (p !! "privateKey") ∧
   (p !! "chainId" = None ∨ p !! "accountIndex" = None)) →
  ∃ e, handler (JObj p) w = (inl e, w) ∧
       respond (JObj fields) w =
       (Emit (<[ "id" := dict_get fields "id" JNull ]>
                {[ "error" := JStr ("exception:" +:+ str_exn e) ]}), w).
Proof.
  intros Hm Hh Hp Hyp.
  assert (∃ e, handler (JObj p) w = (inl e, w)) as [e He].
  { destruct (handler_cases _ _ Hh) as [[_ ->]|(_ & args & -> & _)].
    - destruct (_ensure_client (JObj p) w) as [r w1] eqn:E.
      apply ensure_client_run in E.
      destruct (ensure_run_incomplete _ _ _ _ Hyp E) as [-> [e ->]]. eauto.
    - destruct (sign_flow args (JObj p) w) as [r w1] eqn:E.
      apply sign_flow_run in E.
      inversion E as [e w2 Run|d w2 Run|d w2 j e Run|d w2 j e Run|d w2 j c Run]; subst;
        destruct (ensure_run_incomplete _ _ _ _ Hyp Run) as [-> [e' [=]]]; subst; eauto. }
  exists e. split; [done|].
  unfold respond, HANDLERS_get. rewrite (dict_get_some _ _ _ _ Hm), Hp.
  cbv beta iota zeta. by rewrite Hh, He.
Qed.

(** C3, as amended.  A call of [_ensure_client] for a key that is already
    initialised, in a registry where initialised keys have a configuration,
    and whose inline configuration, when [baseUrl] and [privateKey] are both
    there, also has a [chainId] and an [accountIndex] that [int] accepts,
    returns [ok] without any foreign call: the call log, the library and the
    set of initialised keys are untouched, and the stored configuration is
    either untouched (no inline configuration) or overwritten for that key. *)
Theorem initialised_key_short_circuits (params : json) (i : Z) (w : world B) :
  int_item params "apiKeyIndex" = inr i →
  i ∈ _INITIALISED_KEYS w →
  registry_ok w →
  (contains params "baseUrl" && contains params "privateKey" = true →
   ∃ c a, int_item params "chainId" = inr c ∧ int_item params "accountIndex" = inr a) →
  ∃ w', _ensure_client params w = (inr {[ "result" := JStr "ok" ]}, w') ∧
        calls w' = calls w ∧ LIB w' = LIB w ∧
        _INITIALISED_KEYS w' = _INITIALISED_KEYS w ∧
        if contains params "baseUrl" && contains params "privateKey"
        then ∃ cfg, w' = upsert i cfg w ∧
                    getitem params "baseUrl" = inr (baseUrl cfg) ∧
                    getitem params "privateKey" = inr (privateKey cfg)
        else w' = w.
Proof.
  intros Ei Hin Hok Hfull. fold (inline params) in *.
  destruct (_ensure_client params w) as [r w'] eqn:E. exists w'.
  apply ensure_client_run in E.
  assert (∀ cfg w1, staged params i w cfg w1 →
            calls w1 = calls w ∧ LIB w1 = LIB w ∧
            _INITIALISED_KEYS w1 = _INITIALISED_KEYS w ∧
            if inline params
            then ∃ cfg, w1 = upsert i cfg w ∧
                        getitem params "baseUrl" = inr (baseUrl cfg) ∧
                        getitem params "privateKey" = inr (privateKey cfg)
            else w1 = w) as Frame.
  { intros cfg w1 St. destruct (staged_frame _ _ _ _ _ St) as (_ & ? & ? & ?).
    repeat split; try done. destruct St as [cfg Einl|u k c a Einl]; rewrite Einl; eauto. }
  inversion E as [|j e Ej Einl Bad|j Ej Einl Ec|j cfg w1 Ej St|j cfg w1 e Ej St
                  |j cfg w1 url key e Ej St|j cfg w1 url key Ej St];
    subst; try congruence; assert (j = i) as -> by congruence; try done.
  - destruct (Hfull Einl) as (c & a & Ec & Ea).
    destruct Bad as [?|[_ ?]]; congruence.
  - destruct (Hok _ Hin) as [cfg ?]. congruence.
  - split; [done|]. by apply Frame in St.
Qed.

(** C5.  A call of [_ensure_client] that makes a foreign call makes exactly
    one, [CreateClient] for its key with the configuration now stored.  When
    the library answers with an error string (a non-empty one: that is what
    [_maybe_error] tests), that error is returned and the set of initialised
    keys is as before, without the key, so that any later call for the same
    key that returns calls [CreateClient] again.  When the library answers
    with no error, the key joins the initialised set and [ok] is returned. *)
Theorem create_client_answer_decides_initialisation
    (params : json) (w : world B) (r : exn + dict) (w' : world B) :
  _ensure_client params w = (r, w') →
  calls w' ≠ calls w →
  ∃ i cfg url key,
    let c := create_call i cfg url key in
    int_item params "apiKeyIndex" = inr i ∧
    _CLIENT_CONFIG w' !! i = Some cfg ∧
    encode (baseUrl cfg) = inr url ∧ encode (privateKey cfg) = inr key ∧
    calls w' = calls w ++ [CharP c] ∧
    LIB w' = (lib_char_p c (LIB w)).2 ∧
    match truthy (lib_char_p c (LIB w)).1 with
    | Some e =>
        (r = inr {[ "error" := JStr (decode_utf8 e) ]} ∧
         _INITIALISED_KEYS w' = _INITIALISED_KEYS w ∧
         (i ∉ _INITIALISED_KEYS w') ∧
         ∀ params2 d w2,
           int_item params2 "apiKeyIndex" = inr i →
           _ensure_client params2 w' = (inr d, w2) →
           ∃ cfg2 url2 key2, calls w2 = calls w' ++ [CharP (create_call i cfg2 url2 key2)])
    | None =>
        (r = inr {[ "result" := JStr "ok" ]} ∧
         _INITIALISED_KEYS w' = {[ i ]} ∪ _INITIALISED_KEYS w)
    end.
Proof.
  intros E Hcalls. apply ensure_client_run in E.
  inversion E as [|j e Ej Einl Bad|j Ej Einl Ec|j cfg w1 Ej St|j cfg w1 e Ej St
                  |j cfg w1 url key e Ej St Hin Eu Ek Et|j cfg w1 url key Ej St Hin Eu Ek Et];
    subst; try done;
    try (destruct (staged_frame _ _ _ _ _ St) as (? & ? & ? & ?); congruence);
    destruct (staged_frame _ _ _ _ _ St) as (Ecfg & Ekeys & Elib & Ecalls);
    exists j, cfg, url, key; cbv zeta; rewrite <- Elib, Et; simpl;
    rewrite Ecalls; repeat split; try done.
  intros params2 d w2 Ej2 E2. apply ensure_client_run in E2.
  inversion E2 as [|j2 e2 Ej' Einl Bad|j2 Ej' Einl Ec|j2 cfg2 w3 Ej' St2 Hin2
                   |j2 cfg2 w3 e2 Ej' St2|j2 cfg2 w3 url2 key2 e2 Ej' St2
                   |j2 cfg2 w3 url2 key2 Ej' St2];
    subst; assert (j2 = j) as -> by congruence.
  - change (_CLIENT_CONFIG w1 !! j = None) in Ec. rewrite Ecfg in Ec. discriminate Ec.
  - change (j ∈ _INITIALISED_KEYS w) in Hin2. done.
  - destruct (staged_frame _ _ _ _ _ St2) as (_ & _ & _ & Ec2).
    exists cfg2, url2, key2. simpl. rewrite Ec2. simpl. by rewrite Ecalls.
  - destruct (staged_frame _ _ _ _ _ St2) as (_ & _ & _ & Ec2).
    exists cfg2, url2, key2. simpl. rewrite Ec2. simpl. by rewrite Ecalls.
Qed.

(** ** Responses *)

Lemma setdefault_lookup_ne (d : dict) k v k' :
  k ≠ k' → setdefault d k v !! k' = d !! k'.
Proof.
  intros Hne. unfold setdefault. destruct (d !! k); [done|]. by rewrite lookup_insert_ne.
Qed.

Lemma setdefault_lookup_fresh (d : dict) k v :
  d !! k = None → setdefault d k v !! k = Some v.
Proof. intros E. unfold setdefault. rewrite E. by rewrite lookup_insert_eq. Qed.

Lemma unwrap_shape result : outcome_shape (_unwrap result).
Proof.
  unfold _unwrap, outcome_shape.
  destruct (truthy (err result)); [eauto|]. destruct (truthy (str result)); eauto.
Qed.

Lemma ensure_run_shape params w d w1 :
  ensure_run params w (inr d) w1 → outcome_shape d.
Proof. unfold outcome_shape. inversion 1; eauto. Qed.

Lemma sign_run_shape args params w d w1 :
  sign_run args params w (inr d) w1 → outcome_shape d.
Proof.
  inversion 1; subst; eauto using ensure_run_shape, unwrap_shape.
  unfold outcome_shape. eauto.
Qed.

Lemma handler_shape (method : string) (handler : json → M dict) params w d w1 :
  HANDLERS !! method = Some handler →
  handler params w = (inr d, w1) →
  outcome_shape d.
Proof.
  intros [[_ ->]|(_ & args & -> & _)]%handler_cases E.
  - apply ensure_client_run in E. eauto using ensure_run_shape.
  - apply sign_flow_run in E. eauto using sign_run_shape.
Qed.

Lemma shape_result_no_error (d : dict) :
  outcome_shape d → is_Some (d !! "result") → has_key d "error" = false.
Proof.
  intros [[s ->]|[->|[s ->]]] [v Hv]; apply has_key_false;
    by rewrite ?lookup_singleton_ne in * by done.
Qed.

(** C2.  Whenever a request for one of the four signing methods is answered
    with a [result], the foreign calls made for it are, in this order: at most
    one [CreateClient] for the key of the request, one [SwitchAPIKey] for that
    key, and one call of the signing function of the method; nothing else. *)
Theorem switch_before_sign
    (method : string) (fields : dict) (w : world B) (response : dict) (w' : world B) :
  method ∈ signing_methods →
  fields !! "method" = Some (JStr method) →
  respond (JObj fields) w = (Emit response, w') →
  is_Some (response !! "result") →
  ∃ (i : Z) (sign : struct_call),
    int_item (dict_get fields "params" (JObj ∅)) "apiKeyIndex" = inr i ∧
    method_of sign = method ∧
    (calls w' = calls w ++ [CharP (SwitchAPIKey (c_int i)); Struct sign] ∨
     ∃ cfg url key,
       calls w' = calls w ++ [CharP (create_call i cfg url key);
                              CharP (SwitchAPIKey (c_int i)); Struct sign]).
Proof.
  intros Hm Hf E Hres. unfold respond, HANDLERS_get in E.
  rewrite (dict_get_some _ _ _ _ Hf) in E. cbv beta iota zeta in E.
  set (params := dict_get fields "params" (JObj ∅)) in *.
  destruct (HANDLERS !! method) as [handler|] eqn:Hh; cycle 1.
  { simplify_eq. rewrite lookup_insert_ne, lookup_singleton_ne in Hres by done.
    by destruct Hres. }
  destruct (handler_cases _ _ Hh) as [[-> _]|(_ & args & Hflow & Hargs)].
  { by apply create_client_not_signing in Hm. }
  rewrite Hflow in E. destruct (sign_flow args params w) as [[e|d] w1] eqn:Run.
  { simplify_eq. rewrite lookup_insert_ne, lookup_singleton_ne in Hres by done.
    by destruct Hres. }
  simplify_eq. rewrite setdefault_lookup_ne in Hres by done.
  apply sign_flow_run in Run.
  inversion Run as [|d' w1 Ens Herr|d' w1 i e Ens Herr Ei Et|
                    |d' w1 i c Ens Herr Ei Et Ec]; subst.
  - rewrite (shape_result_no_error d) in Herr; eauto using ensure_run_shape. done.
  - rewrite lookup_singleton_ne in Hres by done. by destruct Hres.
  - exists i, c. split; [done|]. split; [eauto|].
    inversion Ens as [| |j Ej Einl Ecfg|j cfg w3 Ej St|
                      |j cfg w3 url key e Ej St|j cfg w3 url key Ej St]; subst;
      try (by rewrite (proj2 (has_key_true _ _)) in Herr
             by (rewrite lookup_singleton_eq; eauto));
      assert (j = i) as -> by congruence;
      destruct (staged_frame _ _ _ _ _ St) as (_ & _ & _ & Ecalls).
    + left. simpl. rewrite Ecalls. by rewrite <- app_assoc.
    + right. exists cfg, url, key. simpl. rewrite Ecalls. by rewrite <- !app_assoc.
Qed.

(** ** The loop of [main] *)

Lemma prefix_append (s t : string) : String.prefix s (s +:+ t) = true.
Proof.
  induction s as [|a s IH]; simpl; [by destruct t|].
  by destruct (Ascii.ascii_dec a a).
Qed.

Lemma main_emit l rest (w : world B) response w1 :
  turn l w = (Emit response, w1) →
  main (l :: rest) w = (response :: (main rest w1).1.1, (main rest w1).1.2, (main rest w1).2).
Proof. intros E. simpl. rewrite E. by destruct (main rest w1) as [[? ?] ?]. Qed.

Lemma main_crash l rest (w : world B) e w1 :
  turn l w = (Crash e, w1) → main (l :: rest) w = ([], Crashed e, w1).
Proof. intros E. simpl. by rewrite E. Qed.

(** A line that [json.loads] rejects is answered with [invalid_json:] and a
    null id, nothing else changes, and the loop goes on with the next line. *)
Lemma malformed_line_reported detail rest (w : world B) :
  main (Malformed detail :: rest) w =
  (<[ "id" := JNull ]> {[ "error" := JStr ("invalid_json:" +:+ detail) ]}
     :: (main rest w).1.1,
   (main rest w).1.2, (main rest w).2).
Proof. by apply main_emit. Qed.

(** C1, on the code.  A line that parses to anything but a dict ends the
    process at [request.get]: the [AttributeError] is raised outside both
    [try] blocks, no response is printed for the line, and the lines after it
    are never read. *)
Theorem non_object_line_ends_the_process
    (request : json) (rest : list line) (w : world B) :
  (∀ fields, request ≠ JObj fields) →
  main (Parsed request :: rest) w = ([], Crashed (AttributeError request "get"), w).
Proof.
  intros Hno. apply main_crash. simpl. destruct request; try done. by destruct (Hno m).
Qed.

(** C6.  When the handler the table gives for the method of a request raises
    [e], the turn prints an error response whose text starts with
    [exception:] and whose id is the id of the request, the world is the one
    at the raise, and [main] goes on with the rest of the input. *)
Theorem handler_exception_is_reported
    (method : string) (handler : json → M dict) (fields : dict)
    (w : world B) (e : exn) (w1 : world B) (rest : list line) :
  fields !! "method" = Some (JStr method) →
  HANDLERS !! method = Some handler →
  handler (dict_get fields "params" (JObj ∅)) w = (inl e, w1) →
  ∃ response detail,
    respond (JObj fields) w = (Emit response, w1) ∧
    response !! "id" = Some (dict_get fields "id" JNull) ∧
    response !! "error" = Some (JStr detail) ∧
    String.prefix "exception:" detail = true ∧
    response !! "result" = None ∧
    main (Parsed (JObj fields) :: rest) w =
    (response :: (main rest w1).1.1, (main rest w1).1.2, (main rest w1).2).
Proof.
  intros Hf Hh He.
  assert (respond (JObj fields) w =
          (Emit (<[ "id" := dict_get fields "id" JNull ]>
                   {[ "error" := JStr ("exception:" +:+ str_exn e) ]}), w1)) as E.
  { unfold respond, HANDLERS_get. rewrite (dict_get_some _ _ _ _ Hf).
    cbv beta iota zeta. by rewrite Hh, He. }
  eexists _, _. split; [exact E|]. split; [by rewrite lookup_insert_eq|].
  split; [by rewrite lookup_insert_ne, lookup_singleton_eq|].
  split; [apply prefix_append|].
  split; [by rewrite lookup_insert_ne, lookup_singleton_ne|].
  by apply main_emit.
Qed.

Lemma handlers_get_unhashable (method : json) :
  hashable method = false ↔
  HANDLERS_get (B:=B) method = inl (TypeError method).
Proof. destruct method; simpl; split; intros; by simplify_eq. Qed.

(** A request whose method is no key of [HANDLERS] (a string that is none of
    the five names, a number, a boolean, [null], or no method at all) is
    answered with [unknown_method:] and its id; the world is untouched. *)
Lemma unknown_method_leaves_world (fields : dict) (w : world B) :
  hashable (dict_get fields "method" JNull) = true →
  (∀ s, dict_get fields "method" JNull = JStr s → s ∉ "create_client" :: signing_methods) →
  respond (JObj fields) w =
  (Emit (<[ "id" := dict_get fields "id" JNull ]>
           {[ "error" := JStr ("unknown_method:" +:+ format (dict_get fields "method" JNull)) ]}),
   w).
Proof.
  intros Hh Hn. unfold respond, HANDLERS_get.
  destruct (dict_get fields "method" JNull) as [| | | |s| |] eqn:Em; try done.
  by rewrite (handlers_unknown s (Hn s eq_refl)).
Qed.

(** C7, on the code.  A request whose method is a list or a dict ends the
    process at [HANDLERS.get]: hashing the key raises [TypeError] outside the
    [try], no response is printed and the lines after it are never read.  The
    world is untouched. *)
Theorem unhashable_method_ends_the_process
    (fields : dict) (rest : list line) (w : world B) :
  hashable (dict_get fields "method" JNull) = false →
  main (Parsed (JObj fields) :: rest) w =
  ([], Crashed (TypeError (dict_get fields "method" JNull)), w).
Proof.
  intros Hh. apply main_crash. simpl. unfold HANDLERS_get.
  by destruct (dict_get fields "method" JNull).
Qed.

Lemma shape_no_id (d : dict) : outcome_shape d → d !! "id" = None.
Proof. by intros [[s ->]|[->|[s ->]]]; rewrite lookup_singleton_ne. Qed.

Lemma shape_well_shaped (d : dict) v :
  outcome_shape d → well_shaped (setdefault d "id" v).
Proof.
  intros Hs. unfold well_shaped.
  rewrite (setdefault_lookup_fresh _ _ _ (shape_no_id _ Hs)).
  rewrite !setdefault_lookup_ne by done. split; [eauto|].
  destruct Hs as [[s ->]|[->|[s ->]]];
    rewrite ?lookup_singleton_eq, ?lookup_singleton_ne by done; eauto.
Qed.

Lemma error_response_well_shaped v s :
  well_shaped (<[ "id" := v ]> {[ "error" := JStr s ]}).
Proof.
  unfold well_shaped. rewrite lookup_insert_eq, !lookup_insert_ne by done.
  rewrite lookup_singleton_eq, lookup_singleton_ne by done. eauto.
Qed.

Lemma turn_well_shaped l (w : world B) response w1 :
  turn l w = (Emit response, w1) → well_shaped response.
Proof.
  destruct l as [|detail|request|x]; simpl; intros E; simplify_eq.
  { apply error_response_well_shaped. }
  unfold respond, HANDLERS_get in E. destruct request as [| | | | | |fields]; try done.
  destruct (dict_get fields "method" JNull) as [| | | |s| |]; simplify_eq;
    try apply error_response_well_shaped.
  destruct (HANDLERS !! s) as [handler|] eqn:Hh; simplify_eq;
    [|apply error_response_well_shaped].
  destruct (handler _ w) as [[e|d] w2] eqn:Eh; simplify_eq;
    [apply error_response_well_shaped|].
  apply shape_well_shaped. by eapply handler_shape.
Qed.

(** C9.  Every response [main] prints has an id and exactly one of [result]
    (a string or [null]) and [error] (a string). *)
Theorem responses_well_shaped (stdin : list line) (w : world B) :
  Forall well_shaped (main stdin w).1.1.
Proof.
  revert w. induction stdin as [|l rest IH]; intros w; simpl; [constructor|].
  destruct (turn l w) as [[|response|e] w1] eqn:E; simpl.
  - apply IH.
  - specialize (IH w1). destruct (main rest w1) as [[out st] w2]. simpl in *.
    constructor; eauto using turn_well_shaped.
  - constructor.
Qed.

(** *** The registry invariant *)

Lemma ensure_run_registry_ok params w r w1 :
  ensure_run params w r w1 → registry_ok w → registry_ok w1.
Proof.
  assert (∀ i cfg w2, staged params i w cfg w2 → registry_ok w → registry_ok w2) as Staged.
  { intros i cfg w2 [cfg' _ _|u k c a _ _ _ _ _] Hok; [done|].
    intros j Hj. simpl in *. destruct (decide (i = j)) as [->|Hne].
    - rewrite lookup_insert_eq. eauto.
    - rewrite lookup_insert_ne by done. eauto. }
  intros Run Hok.
  inversion Run as [| | |i cfg w2 Ei St|i cfg w2 e Ei St
                    |i cfg w2 url key e Ei St|i cfg w2 url key Ei St]; subst; eauto;
    destruct (staged_frame _ _ _ _ _ St) as (Ecfg & Ekeys & _ & _);
    specialize (Staged _ _ _ St Hok); intros j Hj; simpl in *.
  - apply Staged. by rewrite Ekeys.
  - apply elem_of_union in Hj as [->%elem_of_singleton|Hj]; [eauto|].
    apply Staged. by rewrite Ekeys.
Qed.

Lemma sign_run_registry_ok args params w r w1 :
  sign_run args params w r w1 → registry_ok w → registry_ok w1.
Proof.
  inversion 1; subst; intros Hok; eauto using ensure_run_registry_ok;
    intros j Hj; simpl in *; by eapply ensure_run_registry_ok.
Qed.

Lemma turn_registry_ok l (w : world B) o w1 :
  turn l w = (o, w1) → registry_ok w → registry_ok w1.
Proof.
  destruct l as [|detail|request|x]; simpl; intros E Hok; simplify_eq; try done.
  unfold respond, HANDLERS_get in E. destruct request as [| | | | | |fields]; simplify_eq; try done.
  destruct (dict_get fields "method" JNull) as [| | | |s| |]; simplify_eq; try done.
  destruct (HANDLERS !! s) as [handler|] eqn:Hh; simplify_eq; try done.
  destruct (handler _ w) as [r w2] eqn:Eh.
  assert (registry_ok w2).
  { destruct (handler_cases _ _ Hh) as [[_ Hflow]|(_ & args & Hflow & _)]; rewrite Hflow in Eh.
    - eauto using ensure_run_registry_ok, ensure_client_run.
    - eauto using sign_run_registry_ok, sign_flow_run. }
  destruct r; by simplify_eq.
Qed.

(** Whatever the input, every key [main] has marked initialised has a stored
    configuration. *)
Lemma main_registry_ok (stdin : list line) (w : world B) :
  registry_ok w → registry_ok (main stdin w).2.
Proof.
  revert w. induction stdin as [|l rest IH]; intros w Hok; simpl; [done|].
  destruct (turn l w) as [[|response|e] w1] eqn:E;
    pose proof (turn_registry_ok _ _ _ _ E Hok) as Hok1; simpl.
  - by apply IH.
  - specialize (IH w1 Hok1). by destruct (main rest w1) as [[out st] w2].
  - done.
Qed.

Lemma fresh_registry_ok (b : B) : registry_ok (fresh b).
Proof. intros i Hi. simpl in Hi. by apply not_elem_of_empty in Hi. Qed.

(** ** More about the loop of [main] *)

(** What one turn does, by the kind of its line. *)
Lemma turn_cases l w :
  match turn l w with
  | (Skip, w1) => l = Blank ∧ w1 = w
  | (Emit response, _) =>
      fatal l = false ∧ is_blank l = false ∧ response !! "id" = Some (line_id l)
  | (Crash _, w1) => fatal l = true ∧ w1 = w
  end.
Proof.
  destruct l as [|detail|request|x]; simpl; [done|by rewrite lookup_insert_eq| |done].
  unfold respond, HANDLERS_get, dict_get.
  destruct request as [| | | | | |fields]; try done.
  destruct (fields !! "id") as [id|]; destruct (fields !! "method") as [[| | | |s| |]|];
    simpl; try done; try (by rewrite lookup_insert_eq).
  all: destruct (HANDLERS !! s) as [handler|] eqn:Hh; [|by rewrite lookup_insert_eq].
  all: destruct (handler _ w) as [[e|d] w1] eqn:E; [by rewrite lookup_insert_eq|].
  all: repeat split; apply setdefault_lookup_fresh, shape_no_id; by eapply handler_shape.
Qed.

(** C8, as amended.  The turn for a parsed request object prints a response
    unless the method is a list or a dict, and the id of the response is the
    value [json.loads] gave for the id of the request ([None] when it has
    none), on result and on error responses alike.  Printed, that is the id as
    the request wrote it when the id is a string, a number written with digits
    only, [true], [false] or [null]; an id written with a fraction or an
    exponent is printed as the nearest double, and as [Infinity] or
    [-Infinity] when it is beyond the range of the doubles. *)
Theorem response_echoes_parsed_id (fields : dict) w :
  match (respond (JObj fields) w).1 with
  | Emit response =>
      response !! "id" = Some (match fields !! "id" with
                               | Some id => id
                               | None => JNull
                               end) ∧
      ∀ x : scalar,
        fields !! "id" = Some (loads_scalar x) →
        response !! "id" ≫= dumps_scalar =
        Some (match x with
              | SNull => PNull
              | SBool b => PBool b
              | SInteger z => PInteger z
              | SString s => PString s
              | SDecimal negative digits exponent =>
                  match float_of_decimal negative digits exponent with
                  | S754_infinity false => PInfinity
                  | S754_infinity true => PNegInfinity
                  | S754_nan => PNaN
                  | f => PFloat f
                  end
              end)
  | Crash _ =>
      match fields !! "method" with
      | Some (JArr _) | Some (JObj _) => True
      | _ => False
      end
  | Skip => False
  end.
Proof.
  pose proof (turn_cases (Parsed (JObj fields)) w) as Hc.
  change (turn (Parsed (JObj fields)) w) with (respond (JObj fields) w) in Hc.
  destruct (respond (JObj fields) w) as [[|response|e] w1]; simpl.
  - by destruct Hc.
  - destruct Hc as (_ & _ & Hid). split; [done|].
    intros x Hx. simpl in Hid. rewrite Hid, Hx. destruct x; simpl; try done.
    unfold dumps_float. by destruct (float_of_decimal _ _ _) as [|[]| |].
  - destruct Hc as [Hf _]. simpl in Hf. by destruct (fields !! "method") as [[]|].
Qed.

(** X1.  [main] reads its whole input and returns exactly when no line is
    fatal: [json.loads] raises nothing but [JSONDecodeError] on it, it does
    not parse to a value that is no dict, and it is no request whose method
    is a list or a dict. *)
Theorem main_finishes_iff (stdin : list line) w :
  (main stdin w).1.2 = Finished ↔ Forall (λ l, fatal l = false) stdin.
Proof.
  revert w. induction stdin as [|l rest IH]; intros w; simpl.
  { split; [constructor|done]. }
  pose proof (turn_cases l w) as Hc.
  destruct (turn l w) as [[|response|e] w1]; simpl.
  - destruct Hc as [-> _]. rewrite IH. split.
    + by constructor.
    + by inversion 1.
  - destruct Hc as (Hf & _ & _). specialize (IH w1).
    destruct (main rest w1) as [[out st] w2]. simpl in *. rewrite IH. split.
    + by constructor.
    + by inversion 1.
  - destruct Hc as [Hf _]. split; [done|]. inversion 1; congruence.
Qed.

(** X2.  The responses [main] prints are, in order, one for each line that is
    not blank among the lines before the first fatal one, each with the value
    [json.loads] gave for the id of its line ([null] for a line without an id
    and for a line [json.loads] rejects with a [JSONDecodeError]). *)
Theorem one_response_per_line (stdin : list line) w :
  (λ response : dict, response !! "id") <$> (main stdin w).1.1 =
  (λ l, Some (line_id l)) <$> filter (λ l, is_blank l = false) (before_fatal stdin).
Proof.
  revert w. induction stdin as [|l rest IH]; intros w; simpl; [done|].
  pose proof (turn_cases l w) as Hc.
  destruct (turn l w) as [[|response|e] w1]; simpl.
  - destruct Hc as [-> _]. simpl. rewrite filter_cons_False by done. apply IH.
  - destruct Hc as (Hf & Hb & Hid). rewrite Hf. rewrite filter_cons_True by done.
    rewrite fmap_cons, <- (IH w1), <- Hid.
    by destruct (main rest w1) as [[out st] w2].
  - destruct Hc as [-> _]. done.
Qed.

(** X3.  [main] is a stream processor: on an input in two parts it serves the
    first part, and, unless that ended in a crash, carries on with the second
    part in the world the first part left; after a crash nothing of the second
    part is read. *)
Theorem main_app (before after : list line) w :
  main (before ++ after) w =
  match main before w with
  | (out, Finished, w1) =>
      let '(out', st, w2) := main after w1 in (out ++ out', st, w2)
  | crashed => crashed
  end.
Proof.
  revert w. induction before as [|l rest IH]; intros w; simpl.
  { by destruct (main after w) as [[out st] w2]. }
  destruct (turn l w) as [[|response|e] w1]; simpl; [apply IH| |done].
  rewrite IH. destruct (main rest w1) as [[out [|e]] w2]; [|done].
  by destruct (main after w2) as [[out' st'] w3].
Qed.

(** ** What a request does to the world *)

Lemma c_int_range z : - 2 ^ 31 ≤ c_int z < 2 ^ 31.
Proof. unfold c_int. pose proof (Z.mod_pos_bound (z + 2 ^ 31) (2 ^ 32)). lia. Qed.

Lemma c_longlong_range z : - 2 ^ 63 ≤ c_longlong z < 2 ^ 63.
Proof. unfold c_longlong. pose proof (Z.mod_pos_bound (z + 2 ^ 63) (2 ^ 64)). lia. Qed.

Lemma ensure_run_effect params w r w' :
  ensure_run params w r w' → ensure_effect params w w'.
Proof.
  assert (∀ i cfg w1, int_item params "apiKeyIndex" = inr i → staged params i w cfg w1 →
            w1 = w ∨ ∃ i cfg, int_item params "apiKeyIndex" = inr i ∧ w1 = upsert i cfg w)
    as Staged.
  { intros i cfg w1 Ei [cfg' _ _|u k c a _ _ _ _ _]; eauto. }
  unfold ensure_effect.
  destruct 1 as [| | |i cfg w1 Ei St|i cfg w1 e Ei St|i cfg w1 url key e Ei St
                 |i cfg w1 url key Ei St].
  1-3: by exists w; split; left.
  1-2: by exists w1; split; [eapply Staged|left].
  all: destruct (staged_frame _ _ _ _ _ St) as (_ & Ek & _ & _);
    exists w1; (split; [by eapply Staged|]); right; exists i, cfg, url, key;
    rewrite Ek; eauto.
Qed.

Lemma args_fit params c :
  create_order_args params = inr c ∨ cancel_order_args params = inr c ∨
  cancel_all_args params = inr c ∨ auth_token_args params = inr c →
  call_fits (Struct c).
Proof.
  unfold create_order_args, cancel_order_args, cancel_all_args, auth_token_args, call_fits.
  intros [E|[E|[E|E]]]; repeat destruct (int_item params _); simplify_eq; simpl;
    repeat constructor; apply c_int_range || apply c_longlong_range.
Qed.

Lemma sign_run_effect args params w r w' :
  (∀ c, args params = inr c → call_fits (Struct c)) →
  sign_run args params w r w' → handler_effect params w w'.
Proof.
  intros Hfit. unfold handler_effect.
  destruct 1 as [e w1 Run|d w1 Run|d w1 i e Run _ Ei|d w1 i e Run _ Ei
                 |d w1 i c Run _ Ei _ Ec];
    exists w1; (split; [by eapply ensure_run_effect|]); eauto 10.
Qed.

(** Whatever a handler of the table returns or raises, the world it leaves is
    one [handler_effect] allows. *)
Lemma handler_run_effect (method : string) (handler : json → M dict) params w r w' :
  HANDLERS !! method = Some handler →
  handler params w = (r, w') →
  handler_effect params w w'.
Proof.
  intros [[_ ->]|[[_ ->]|[[_ ->]|[[_ ->]|[_ ->]]]]]%handlers_lookup E.
  - apply ensure_client_run, ensure_run_effect in E. exists w'. eauto.
  - rewrite handle_sign_create_order_flow in E. apply sign_flow_run in E.
    eapply sign_run_effect; [|done]. eauto using args_fit.
  - rewrite handle_sign_cancel_order_flow in E. apply sign_flow_run in E.
    eapply sign_run_effect; [|done]. eauto using args_fit.
  - rewrite handle_sign_cancel_all_flow in E. apply sign_flow_run in E.
    eapply sign_run_effect; [|done]. eauto using args_fit.
  - rewrite handle_create_auth_token_flow in E. apply sign_flow_run in E.
    eapply sign_run_effect; [|done]. eauto 6 using args_fit.
Qed.

(** One turn of the loop leaves the world as it was or as a handler of the
    table left it. *)
Lemma turn_effect l w o w' :
  turn l w = (o, w') → w' = w ∨ ∃ params, handler_effect params w w'.
Proof.
  destruct l as [|detail|request|x]; simpl; intros E; simplify_eq; eauto.
  unfold respond, HANDLERS_get in E. destruct request as [| | | | | |fields]; simplify_eq; eauto.
  destruct (dict_get fields "method" JNull) as [| | | |s| |]; simplify_eq; eauto.
  destruct (HANDLERS !! s) as [handler|] eqn:Hh; simplify_eq; eauto.
  destruct (handler _ w) as [r w2] eqn:Eh.
  right. eexists. assert (w' = w2) as -> by (destruct r; by simplify_eq).
  by eapply handler_run_effect.
Qed.

(** An invariant of every world a handler can leave is an invariant of
    [main]. *)
Lemma main_invariant (P : world B → Prop) :
  (∀ params w w', handler_effect params w w' → P w → P w') →
  ∀ stdin w, P w → P (main stdin w).2.
Proof.
  intros Step. induction stdin as [|l rest IH]; intros w HP; simpl; [done|].
  destruct (turn l w) as [o w1] eqn:E.
  assert (P w1) as HP1.
  { apply turn_effect in E as [->|[params Eff]]; eauto. }
  destruct o as [|response|e]; simpl; [by apply IH| |done].
  specialize (IH w1 HP1). by destruct (main rest w1) as [[out st] w2].
Qed.

Lemma ensure_effect_grows params w w' :
  ensure_effect params w w' →
  (∀ i, is_Some (_CLIENT_CONFIG w !! i) → is_Some (_CLIENT_CONFIG w' !! i)) ∧
  _INITIALISED_KEYS w ⊆ _INITIALISED_KEYS w' ∧
  calls w `prefix_of` calls w'.
Proof.
  intros (w1 & Hw1 & Hw').
  assert ((∀ i, is_Some (_CLIENT_CONFIG w !! i) → is_Some (_CLIENT_CONFIG w1 !! i)) ∧
          _INITIALISED_KEYS w1 = _INITIALISED_KEYS w ∧ calls w1 = calls w) as (Hc & Hk & Hl).
  { destruct Hw1 as [->|(i & cfg & _ & ->)]; [done|]. simpl. split; [|done].
    intros j Hj. destruct (decide (i = j)) as [->|Hne].
    - rewrite lookup_insert_eq. eauto.
    - by rewrite lookup_insert_ne. }
  destruct Hw' as [->|(i & cfg & url & key & _ & [->| ->])]; simpl; rewrite ?Hk, ?Hl.
  - done.
  - repeat split; [done|done|]. by apply prefix_app_r.
  - repeat split; [done|apply union_subseteq_r|]. by apply prefix_app_r.
Qed.

Lemma handler_effect_grows params w w' :
  handler_effect params w w' →
  (∀ i, is_Some (_CLIENT_CONFIG w !! i) → is_Some (_CLIENT_CONFIG w' !! i)) ∧
  _INITIALISED_KEYS w ⊆ _INITIALISED_KEYS w' ∧
  calls w `prefix_of` calls w'.
Proof.
  intros (w1 & (Hc & Hk & Hl)%ensure_effect_grows & Hw').
  destruct Hw' as [->|(i & _ & [->|(c & _ & ->)])]; simpl; repeat split; eauto.
  - by apply prefix_app_r.
  - rewrite <- app_assoc. by apply prefix_app_r.
Qed.

(** X4.  Nothing is ever taken out of the registry and nothing is ever
    erased from the call log: whatever the input, a key that had a
    configuration still has one after [main], a key that was initialised
    still is, and the call log of the end starts with the call log of the
    beginning. *)
Theorem registry_only_grows (stdin : list line) w :
  (∀ i, is_Some (_CLIENT_CONFIG w !! i) →
        is_Some (_CLIENT_CONFIG (main stdin w).2 !! i)) ∧
  _INITIALISED_KEYS w ⊆ _INITIALISED_KEYS (main stdin w).2 ∧
  calls w `prefix_of` calls (main stdin w).2.
Proof.
  apply (main_invariant (λ w',
    (∀ i, is_Some (_CLIENT_CONFIG w !! i) → is_Some (_CLIENT_CONFIG w' !! i)) ∧
    _INITIALISED_KEYS w ⊆ _INITIALISED_KEYS w' ∧ calls w `prefix_of` calls w')); [|done].
  intros params w1 w2 (Hc & Hk & Hl)%handler_effect_grows (Hc' & Hk' & Hl').
  repeat split; eauto; by etrans.
Qed.

Lemma handler_effect_announced params w w' :
  handler_effect params w w' → announced w → announced w'.
Proof.
  intros Eff Ha j Hj.
  destruct (handler_effect_grows _ _ _ Eff) as (_ & _ & [tail Et]).
  destruct (decide (j ∈ _INITIALISED_KEYS w)) as [Hold|Hnew].
  { destruct (Ha j Hold) as (url & key & chain & account & Hin).
    exists url, key, chain, account. rewrite Et. apply elem_of_app. by left. }
  destruct Eff as (w1 & (w0 & Hw0 & Hw1) & Hw').
  assert (_INITIALISED_KEYS w0 = _INITIALISED_KEYS w) as Hk0.
  { by destruct Hw0 as [->|(i & cfg & _ & ->)]. }
  assert (j ∈ _INITIALISED_KEYS w1) as Hj1.
  { by destruct Hw' as [->|(i & _ & [->|(c & _ & ->)])]. }
  assert (∃ url key chain account,
            CharP (CreateClient url key chain (c_int j) account) ∈ calls w1)
    as (url & key & chain & account & Hin).
  { destruct Hw1 as [->|(i & cfg & url & key & _ & [->| ->])]; simpl in Hj1.
    - by rewrite Hk0 in Hj1.
    - by rewrite Hk0 in Hj1.
    - rewrite Hk0 in Hj1. apply elem_of_union in Hj1 as [->%elem_of_singleton|?]; [|done].
      eexists _, _, _, _. simpl. apply elem_of_app. right. apply list_elem_of_singleton.
      reflexivity. }
  exists url, key, chain, account.
  destruct Hw' as [->|(i & _ & [->|(c & _ & ->)])]; simpl;
    rewrite ?elem_of_app; eauto.
Qed.

(** X5.  A key is marked initialised only once the library has been asked to
    create its client: in every world [main] reaches from a fresh start, each
    initialised key has a [CreateClient] call for that key in the call log. *)
Theorem initialised_keys_were_announced (stdin : list line) (b : B) :
  announced (main stdin (fresh b)).2.
Proof.
  apply (main_invariant announced).
  - apply handler_effect_announced.
  - intros i Hi. by apply not_elem_of_empty in Hi.
Qed.

(** *** The order and the arguments of the calls *)

Lemma switch_precedes_sign_snoc switched log c :
  switch_precedes_sign switched (log ++ [c]) =
  switch_precedes_sign switched log &&
  match c with
  | Struct _ => last_is_switch switched log
  | CharP _ => true
  end.
Proof.
  revert switched. induction log as [|c' log IH]; intros switched.
  { destruct c as [[]|]; simpl; by rewrite ?andb_true_r. }
  assert (∀ b, last_is_switch b (c' :: log) = last_is_switch (is_switch c') log) as Hl.
  { intros b. unfold last_is_switch. rewrite last_cons. by destruct (last log). }
  rewrite Hl. destruct c' as [[]|]; simpl; rewrite IH; simpl; try done.
  by rewrite andb_assoc.
Qed.

Lemma handler_effect_switch_precedes_sign params w w' :
  handler_effect params w w' →
  switch_precedes_sign false (calls w) = true →
  switch_precedes_sign false (calls w') = true.
Proof.
  intros (w1 & (w0 & Hw0 & Hw1) & Hw') Hlog.
  assert (calls w0 = calls w) as Hl0 by (by destruct Hw0 as [->|(i & cfg & _ & ->)]).
  assert (switch_precedes_sign false (calls w1) = true) as Hlog1.
  { destruct Hw1 as [->|(i & cfg & url & key & _ & [->| ->])]; simpl; rewrite ?Hl0;
      [done| |]; rewrite switch_precedes_sign_snoc, Hlog; done. }
  destruct Hw' as [->|(i & _ & [->|(c & _ & ->)])]; simpl; [done| |].
  - by rewrite switch_precedes_sign_snoc, Hlog1.
  - rewrite !switch_precedes_sign_snoc, Hlog1. simpl.
    unfold last_is_switch. by rewrite last_snoc.
Qed.

(** X6.  In the call log of any run of [main] from a fresh start, every
    signing call ([SignCreateOrder], [SignCancelOrder], [SignCancelAllOrders],
    [CreateAuthToken]) comes right after a [SwitchAPIKey] call: no other call,
    of this request or of another, gets in between. *)
Theorem every_sign_call_follows_a_switch (stdin : list line) (b : B) :
  switch_precedes_sign false (calls (main stdin (fresh b)).2) = true.
Proof.
  by apply (main_invariant (λ w, switch_precedes_sign false (calls w) = true));
    [apply handler_effect_switch_precedes_sign|].
Qed.

(** ** More about the registry and the handlers *)

(** X8.  A request touches the registry entry of no key but its own: for
    every handler of the table and every key [j] that is not the
    [apiKeyIndex] of the params, the stored configuration of [j] and whether
    [j] is initialised are the same after the handler as before, whether it
    returned or raised. *)
Theorem request_touches_only_its_key
    (method : string) (handler : json → M dict) params w (j : Z) :
  HANDLERS !! method = Some handler →
  int_item params "apiKeyIndex" ≠ inr j →
  _CLIENT_CONFIG (handler params w).2 !! j = _CLIENT_CONFIG w !! j ∧
  (j ∈ _INITIALISED_KEYS (handler params w).2 ↔ j ∈ _INITIALISED_KEYS w).
Proof.
  intros Hh Hj. destruct (handler params w) as [r w'] eqn:E. simpl.
  destruct (handler_run_effect _ _ _ _ _ _ Hh E) as (w1 & (w0 & Hw0 & Hw1) & Hw').
  assert (_CLIENT_CONFIG w0 !! j = _CLIENT_CONFIG w !! j ∧
          _INITIALISED_KEYS w0 = _INITIALISED_KEYS w) as [Hc0 Hk0].
  { destruct Hw0 as [->|(i & cfg & Ei & ->)]; [done|]. simpl. split; [|done].
    apply lookup_insert_ne. congruence. }
  assert (_CLIENT_CONFIG w1 = _CLIENT_CONFIG w0 ∧
          (j ∈ _INITIALISED_KEYS w1 ↔ j ∈ _INITIALISED_KEYS w0)) as [Hc1 Hk1].
  { destruct Hw1 as [->|(i & cfg & url & key & Ei & [->| ->])]; simpl; [done|done|].
    split; [done|]. rewrite elem_of_union, elem_of_singleton.
    split; [intros [->|?]; [congruence|done]|by right]. }
  assert (_CLIENT_CONFIG w' = _CLIENT_CONFIG w1 ∧
          _INITIALISED_KEYS w' = _INITIALISED_KEYS w1) as [Hc' Hk'].
  { by destruct Hw' as [->|(i & _ & [->|(c & _ & ->)])]. }
  by rewrite Hc', Hk', Hc1, Hk1, Hc0, Hk0.
Qed.

Lemma sign_flow_registry args params w :
  _CLIENT_CONFIG (sign_flow args params w).2 = _CLIENT_CONFIG (_ensure_client params w).2 ∧
  _INITIALISED_KEYS (sign_flow args params w).2 =
  _INITIALISED_KEYS (_ensure_client params w).2.
Proof.
  unfold sign_flow, bind, lift, _switch_api_key, call_char_p, call_struct, ret.
  destruct (_ensure_client params w) as [[e|d] w1]; simpl; [done|].
  destruct (has_key d "error"); simpl; [done|].
  destruct (int_item params "apiKeyIndex") as [e|i]; simpl; [done|].
  destruct (has_key (_maybe_error _) "error"); simpl; [done|].
  by destruct (args params) as [e|c].
Qed.

(** X9.  Signing never writes to the registry on its own account: after any
    handler of the table, the stored configurations and the set of initialised
    keys are exactly those [_ensure_client] leaves on the same params and
    world, whatever the switch and the signing call answered. *)
Theorem handlers_leave_the_registry_to_ensure_client
    (method : string) (handler : json → M dict) params w :
  HANDLERS !! method = Some handler →
  _CLIENT_CONFIG (handler params w).2 = _CLIENT_CONFIG (_ensure_client params w).2 ∧
  _INITIALISED_KEYS (handler params w).2 = _INITIALISED_KEYS (_ensure_client params w).2.
Proof.
  intros [[_ ->]|(_ & args & -> & _)]%handler_cases; [done|apply sign_flow_registry].
Qed.

(** X10.  The last configuration written wins, also when the call fails: as
    soon as the params carry [baseUrl], [privateKey] and a [chainId] and an
    [accountIndex] that [int] accepts, the configuration stored for the key
    after [_ensure_client] is the one of the params, with the two strings as
    they came, whether the call returned [ok], returned a library error, or
    raised while encoding. *)
Theorem inline_configuration_is_stored params (i : Z) (u k : json) (c a : Z) w :
  int_item params "apiKeyIndex" = inr i →
  getitem params "baseUrl" = inr u →
  getitem params "privateKey" = inr k →
  int_item params "chainId" = inr c →
  int_item params "accountIndex" = inr a →
  _CLIENT_CONFIG (_ensure_client params w).2 !! i = Some (Build_ClientConfig u k c a).
Proof.
  intros Ei Eu Ek Ec Ea.
  assert (inline params = true) as Einl.
  { unfold inline. destruct params as [| | | | | |p]; try done. simpl in *.
    destruct (p !! "baseUrl") eqn:E1; [|done]. destruct (p !! "privateKey") eqn:E2; [|done].
    by rewrite !(proj2 (has_key_true _ _)) by eauto. }
  assert (∀ cfg w1, staged params i w cfg w1 →
            _CLIENT_CONFIG w1 !! i = Some (Build_ClientConfig u k c a)) as Staged.
  { intros cfg w1 St. destruct (staged_frame _ _ _ _ _ St) as [-> _].
    destruct St as [cfg ? _|u' k' c' a' _ ? ? ? ?]; congruence. }
  destruct (_ensure_client params w) as [r w'] eqn:E. apply ensure_client_run in E. simpl.
  inversion E as [|j e Ej _ Bad|j Ej ?|j cfg w1 Ej St|j cfg w1 e Ej St
                  |j cfg w1 url key e Ej St|j cfg w1 url key Ej St];
    subst; try congruence; try (destruct Bad as [?|[_ ?]]; congruence);
    assert (j = i) as -> by congruence; simpl; eauto.
Qed.

(** X11.  A key is registered with the configuration stored for it: when the
    params carry no inline configuration, the key has a stored configuration
    whose two strings encode, and the key is not initialised yet,
    [_ensure_client] makes exactly one call, [CreateClient] with the stored
    strings, the stored [chainId] and the key cut to 32 bits and the stored
    [accountIndex] cut to 64 bits, and leaves the stored configurations as
    they were. *)
Theorem stored_configuration_is_used
    params (i : Z) (cfg : ClientConfig) (url key : string) w :
  int_item params "apiKeyIndex" = inr i →
  contains params "baseUrl" && contains params "privateKey" = false →
  _CLIENT_CONFIG w !! i = Some cfg →
  i ∉ _INITIALISED_KEYS w →
  encode (baseUrl cfg) = inr url →
  encode (privateKey cfg) = inr key →
  calls (_ensure_client params w).2 =
    calls w ++ [CharP (CreateClient url key (c_int (chainId cfg)) (c_int i)
                                    (c_longlong (accountIndex cfg)))] ∧
  _CLIENT_CONFIG (_ensure_client params w).2 = _CLIENT_CONFIG w.
Proof.
  intros Ei Einl Ecfg Hin Eu Ek. fold (inline params) in Einl.
  assert (∀ cfg' w1, staged params i w cfg' w1 → cfg' = cfg ∧ w1 = w) as Staged.
  { intros cfg' w1 [cfg'' _ ?|u' k' c' a' ? _ _ _ _]; [split|]; congruence. }
  destruct (_ensure_client params w) as [r w'] eqn:E. apply ensure_client_run in E. simpl.
  inversion E as [|j e Ej ? Bad|j Ej ? ?|j cfg' w1 Ej St|j cfg' w1 e Ej St ? Bad
                  |j cfg' w1 url' key' e Ej St ? Eu' Ek'|j cfg' w1 url' key' Ej St ? Eu' Ek'];
    subst; try congruence; assert (j = i) as -> by congruence; try done;
    destruct (Staged _ _ St) as [-> ->].
  - destruct Bad as [?|[_ ?]]; congruence.
  - assert (url' = url) as -> by congruence. by assert (key' = key) as -> by congruence.
  - assert (url' = url) as -> by congruence. by assert (key' = key) as -> by congruence.
Qed.

Lemma log_tail (log pre added : list lib_call) c :
  log ++ added = log ++ pre ++ [Struct c] → last added = Some (Struct c).
Proof. intros ->%app_inv_head. apply last_snoc. Qed.

Lemma ensure_run_calls params w r w1 :
  ensure_run params w r w1 →
  calls w1 = calls w ++ [] ∨ ∃ c : char_p_call, calls w1 = calls w ++ [CharP c].
Proof.
  intros (w0 & Hw0 & Hw1)%ensure_run_effect.
  assert (calls w0 = calls w) as Hl by (by destruct Hw0 as [->|(i & cfg & _ & ->)]).
  destruct Hw1 as [->|(i & cfg & url & key & _ & [->| ->])]; simpl; rewrite Hl;
    [left; by rewrite app_nil_r|right; eauto|right; eauto].
Qed.

Lemma sign_flow_cases args params w :
  sign_flow args params w =
  match _ensure_client params w with
  | (inl e, w1) => (inl e, w1)
  | (inr d, w1) =>
      if has_key d "error" then (inr d, w1) else
      match int_item params "apiKeyIndex" with
      | inl e => (inl e, w1)
      | inr i =>
          let w2 := answered (SwitchAPIKey (c_int i)) (_INITIALISED_KEYS w1) w1 in
          match truthy (lib_char_p (SwitchAPIKey (c_int i)) (LIB w1)).1 with
          | Some e => (inr {[ "error" := JStr (decode_utf8 e) ]}, w2)
          | None =>
              match args params with
              | inl e => (inl e, w2)
              | inr c => (inr (_unwrap (lib_struct c (LIB w2)).1), signed c w2)
              end
          end
      end
  end.
Proof.
  unfold sign_flow, bind at 1.
  destruct (_ensure_client params w) as [[e|d] w1]; [done|].
  destruct (has_key d "error"); [done|].
  unfold bind at 1, lift at 1.
  destruct (int_item params "apiKeyIndex") as [e|i]; [done|].
  rewrite (bind_inr _ _ _ _ _ (switch_api_key_run _ _)).
  destruct (maybe_error_cases (lib_char_p (SwitchAPIKey (c_int i)) (LIB w1)).1)
    as [(e & -> & -> & ->)|(-> & -> & ->)]; [done|].
  unfold bind at 1, lift. destruct (args params) as [e|c]; [done|].
  unfold bind, call_struct, ret. done.
Qed.

(** X12.  The answer of a signing call is never lost: whenever a handler has
    made a signing call [c], [c] is the signing function of the method, it
    was answered by the library in the state the [SwitchAPIKey] for the key of
    the request left it in (itself called in the state [_ensure_client] left),
    and what the handler returns is [_unwrap] of that answer; nothing can
    raise between the call and the return. *)
Theorem signing_answer_is_the_response
    (method : string) (handler : json → M dict) params w (r : exn + dict) w'
    (pre : list lib_call) (c : struct_call) :
  HANDLERS !! method = Some handler →
  handler params w = (r, w') →
  calls w' = calls w ++ pre ++ [Struct c] →
  method_of c = method ∧
  ∃ i, int_item params "apiKeyIndex" = inr i ∧
       let switched :=
         (lib_char_p (SwitchAPIKey (c_int i)) (LIB (_ensure_client params w).2)).2 in
       r = inr (_unwrap (lib_struct c switched).1) ∧
       LIB w' = (lib_struct c switched).2.
Proof.
  intros Hh E Hlog.
  destruct (handler_cases _ _ Hh) as [[-> Hflow]|(_ & args & Hflow & Hargs)];
    rewrite Hflow in E.
  { apply ensure_client_run, ensure_run_calls in E as [El|[c0 El]];
      rewrite El in Hlog; by apply log_tail in Hlog. }
  rewrite sign_flow_cases in E.
  destruct (_ensure_client params w) as [r1 w1] eqn:Ens.
  destruct (ensure_run_calls _ _ _ _ (ensure_client_run _ _ _ _ Ens)) as [El|[c0 El]];
    (destruct r1 as [e|d]; [|destruct (has_key d "error")];
     [injection E as <- <-; rewrite El in Hlog; by apply log_tail in Hlog ..|]);
    (destruct (int_item params "apiKeyIndex") as [e|i] eqn:Ei;
     [injection E as <- <-; rewrite El in Hlog; by apply log_tail in Hlog|]);
    cbv zeta in E;
    (destruct (truthy _) as [e|];
     [injection E as <- <-; simpl in Hlog; rewrite El, <- ?app_assoc in Hlog;
      by apply log_tail in Hlog|]);
    (destruct (args params) as [e|c'] eqn:Ec;
     [injection E as <- <-; simpl in Hlog; rewrite El, <- ?app_assoc in Hlog;
      by apply log_tail in Hlog|]);
    injection E as <- <-; simpl in Hlog; rewrite El, <- ?app_assoc in Hlog;
    apply log_tail in Hlog; simpl in Hlog; injection Hlog as <-;
    (split; [by eapply Hargs|]); exists i; simpl; eauto.
Qed.

Ltac args_read :=
  intros E;
  repeat match type of E with
         | context [int_item ?params ?k] =>
             let Ek := fresh "E" in
             destruct (int_item params k) eqn:Ek; cbv beta iota in E; [discriminate E|]
         end;
  simpl; repeat (apply Forall_cons; split; [by eexists|]); by apply Forall_nil.

Lemma create_order_args_reads params c :
  create_order_args params = inr c →
  Forall (λ f, ∃ z, int_item params f = inr z) (operation_fields "sign_create_order").
Proof. unfold create_order_args. args_read. Qed.

Lemma cancel_order_args_reads params c :
  cancel_order_args params = inr c →
  Forall (λ f, ∃ z, int_item params f = inr z) (operation_fields "sign_cancel_order").
Proof. unfold cancel_order_args. args_read. Qed.

Lemma cancel_all_args_reads params c :
  cancel_all_args params = inr c →
  Forall (λ f, ∃ z, int_item params f = inr z) (operation_fields "sign_cancel_all").
Proof. unfold cancel_all_args. args_read. Qed.

Lemma auth_token_args_reads params c :
  auth_token_args params = inr c →
  Forall (λ f, ∃ z, int_item params f = inr z) (operation_fields "create_auth_token").
Proof. unfold auth_token_args. args_read. Qed.

Lemma args_missing (method field : string) (p : dict) (args : json → exn + struct_call) :
  (∀ c, args (JObj p) = inr c →
        Forall (λ f, ∃ z, int_item (JObj p) f = inr z) (operation_fields method)) →
  field ∈ operation_fields method →
  p !! field = None →
  ∃ e, args (JObj p) = inl e.
Proof.
  intros Reads Hf Hp. destruct (args (JObj p)) as [e|c] eqn:E; [eauto|].
  specialize (Reads c eq_refl). rewrite Forall_forall in Reads.
  destruct (Reads field Hf) as [z Hz]. rewrite (int_item_missing _ _ Hp) in Hz.
  discriminate Hz.
Qed.

(** X13.  The fields of the operation are read last.  When a signing request
    lacks one of the fields its method needs, but [_ensure_client] returns
    without error and the library accepts the switch, the handler raises only
    after both: the response is an exception, the world is the one after
    [_ensure_client] and the [SwitchAPIKey] call (the key stays registered and
    switched), and no signing call is made. *)
Theorem missing_field_raises_after_the_switch
    (method : string) (handler : json → M dict) (p : dict) (field : string)
    w (d : dict) w1 (i : Z) :
  HANDLERS !! method = Some handler →
  field ∈ operation_fields method →
  p !! field = None →
  int_item (JObj p) "apiKeyIndex" = inr i →
  _ensure_client (JObj p) w = (inr d, w1) →
  has_key d "error" = false →
  truthy (lib_char_p (SwitchAPIKey (c_int i)) (LIB w1)).1 = None →
  ∃ e, handler (JObj p) w =
       (inl e, answered (SwitchAPIKey (c_int i)) (_INITIALISED_KEYS w1) w1).
Proof.
  intros Hh Hf Hp Ei Ens Herr Hsw.
  assert (∀ args, (∃ e, args (JObj p) = inl e) →
            ∃ e, sign_flow args (JObj p) w =
                 (inl e, answered (SwitchAPIKey (c_int i)) (_INITIALISED_KEYS w1) w1))
    as Flow.
  { intros args [e Ea]. exists e. unfold sign_flow.
    rewrite (bind_inr _ _ _ _ _ Ens), Herr.
    unfold lift at 1. rewrite Ei. unfold bind at 1.
    rewrite (bind_inr _ _ _ _ _ (switch_api_key_run _ _)).
    destruct (maybe_error_cases (lib_char_p (SwitchAPIKey (c_int i)) (LIB w1)).1)
      as [(e' & Et & _)|(_ & _ & ->)]; [congruence|].
    unfold bind, lift. by rewrite Ea. }
  apply handlers_lookup in Hh as [[-> ->]|[[-> ->]|[[-> ->]|[[-> ->]|[-> ->]]]]].
  - by apply elem_of_nil in Hf.
  - destruct (Flow create_order_args) as [e He]; [|exists e].
    + eapply args_missing; eauto using create_order_args_reads.
    + by rewrite handle_sign_create_order_flow.
  - destruct (Flow cancel_order_args) as [e He]; [|exists e].
    + eapply args_missing; eauto using cancel_order_args_reads.
    + by rewrite handle_sign_cancel_order_flow.
  - destruct (Flow cancel_all_args) as [e He]; [|exists e].
    + eapply args_missing; eauto using cancel_all_args_reads.
    + by rewrite handle_sign_cancel_all_flow.
  - destruct (Flow auth_token_args) as [e He]; [|exists e].
    + eapply args_missing; eauto using auth_token_args_reads.
    + by rewrite handle_create_auth_token_flow.
Qed.

Lemma c_int_wraps (i k : Z) : c_int (i + k * 2 ^ 32) = c_int i.
Proof.
  unfold c_int. replace (i + k * 2 ^ 32 + 2 ^ 31) with (i + 2 ^ 31 + k * 2 ^ 32) by lia.
  by rewrite Z.mod_add.
Qed.

(** X14.  The registry tells keys apart that the library cannot: a key and
    the same key plus a multiple of 2^32 are two entries of the registry (X8),
    but the [SwitchAPIKey] and the [CreateClient] calls made for the one are
    the very calls made for the other, because the key is cut to a C [int] on
    its way out. *)
Theorem keys_alias_modulo_2_32 (i k : Z) (cfg : ClientConfig) (url key : string) w :
  _switch_api_key (i + k * 2 ^ 32) w = _switch_api_key i w ∧
  create_call (i + k * 2 ^ 32) cfg url key = create_call i cfg url key.
Proof.
  unfold _switch_api_key, create_call. by rewrite c_int_wraps.
Qed.

End BridgeFacts.

(** ** Start-up *)

Section StartupFacts.
Context `{PyRuntime} {E B : Type} `{Host E B} `{SignerLib B}.
Implicit Types (h : host E) (e : E).

(** X17.  [_load_library] tries the path once; it tries again, once, only
    under Darwin and only when the text of the first failure contains
    [code signature], and then after having run [xattr] and [codesign] on the
    path, in that order.  So the log grows by [Cdll path] alone, or by a
    prefix of [Cdll; Run xattr; Run codesign; Cdll] cut where a program could
    not be started. *)
Theorem load_library_attempts (path : string) h :
  ∃ added,
    ops (_load_library path h).2 = ops h ++ added ∧
    (added = [Cdll path] ∨
     ((∃ message, (cdll path (env h)).1 = inl message ∧
                  str_in "code signature" message = true) ∧
      platform_system (cdll path (env h)).2 = "Darwin" ∧
      ((added = [Cdll path; Run (xattr_argv path)] ∧
        ∃ failure, (_load_library path h).1 = inl (OSError failure)) ∨
       (added = [Cdll path; Run (xattr_argv path); Run (codesign_argv path)] ∧
        ∃ failure, (_load_library path h).1 = inl (OSError failure)) ∨
       added = [Cdll path; Run (xattr_argv path); Run (codesign_argv path); Cdll path]))).
Proof.
  unfold _load_library, do_cdll, do_run. simpl.
  destruct (cdll path (env h)) as [[message|lib] e1] eqn:E1; simpl; [|eauto].
  destruct (bool_decide (platform_system e1 = "Darwin")) eqn:Ed; simpl; [|eauto].
  apply bool_decide_eq_true in Ed.
  destruct (str_in "code signature" message) eqn:Es; [|eauto].
  destruct (subprocess_run (xattr_argv path) e1) as [[failure|] e2]; simpl.
  { eexists. split; [by rewrite <- app_assoc|]. right. eauto 10. }
  destruct (subprocess_run (codesign_argv path) e2) as [[failure|] e3]; simpl.
  { eexists. split; [by rewrite <- !app_assoc|]. right. eauto 10. }
  destruct (cdll path e3) as [[again|lib] e4]; simpl;
    (eexists; split; [by rewrite <- !app_assoc|]; right; eauto 10).
Qed.

Lemma main_well_shaped (stdin : list line) (w : world B) :
  Forall well_shaped (main stdin w).1.1.
Proof.
  revert w. induction stdin as [|l rest IH]; intros w; simpl; [constructor|].
  destruct (turn l w) as [[|response|x] w1] eqn:Et; simpl; [apply IH| |constructor].
  specialize (IH w1). destruct (main rest w1) as [[out st] w2]. simpl in *.
  constructor; [by eapply turn_well_shaped|done].
Qed.

(** X18.  A start-up that fails never reads standard input.  When the script
    ends through the [sys.exit(1)] of line 54, that is when loading the
    library raised an [OSError], it has printed exactly one response, with a
    null id and an error that starts with [failed_to_load_signer:]; when the
    start-up code ends with an exception nobody catches (an unsupported
    platform, a missing file, a missing symbol) it has printed nothing.  In
    both cases any other input gives the same run.  The two cases are told
    apart by what was printed, not by the exit status of the process. *)
Theorem startup_failure_ignores_stdin h (stdin stdin' : list line) :
  match (script h stdin).1.2 with
  | Returned | Traceback _ => True
  | Exit1 =>
      script h stdin' = script h stdin ∧
      ∃ msg, (script h stdin).1.1 =
             [ <[ "id" := JNull ]>
                 {[ "error" := JStr ("failed_to_load_signer:" +:+ msg) ]} ]
  | StartupTraceback _ =>
      script h stdin' = script h stdin ∧ (script h stdin).1.1 = []
  end.
Proof.
  unfold script. destruct (_resolve_signer_path (env h)) as [e|path]; [done|].
  destruct (_load_library path h) as [[[msg|msg|msg|name]|lib] h1];
    [done|split; [done|by eexists]|split; [done|by eexists]|done|].
  destruct (find (λ name, negb (exports lib name)) symbols) as [name|]; [done|].
  by destruct (main stdin (fresh lib)) as [[out [|e]] w].
Qed.

(** X19.  Every response the script prints, the one of a failed start-up
    included, has an id and exactly one of [result] (a string or [null]) and
    [error] (a string). *)
Theorem script_responses_well_shaped h (stdin : list line) :
  Forall well_shaped (script h stdin).1.1.
Proof.
  unfold script. destruct (_resolve_signer_path (env h)) as [e|path]; [constructor|].
  destruct (_load_library path h) as [[[msg|msg|msg|name]|lib] h1];
    [constructor| | |constructor|];
    try (apply Forall_singleton, error_response_well_shaped).
  destruct (find (λ name, negb (exports lib name)) symbols) as [name|]; [constructor|].
  pose proof (main_well_shaped stdin (fresh lib)) as Hm.
  by destruct (main stdin (fresh lib)) as [[out st] w].
Qed.

End StartupFacts.

(** ** The bridge at work

    The scenarios of the protocol, run on [cpython] and [scripted], and the
    theorems above applied to them. *)

#[local] Existing Instances cpython scripted.

(** The first [create_client] registers the key with one [CreateClient];
    the second one makes no foreign call. *)
Example create_client_twice :
  main [Parsed (obj create_request); Parsed (obj create_request)] (fresh []) =
  ([ <[ "id" := JInt 1 ]> {[ "result" := JStr "ok" ]};
     <[ "id" := JInt 1 ]> {[ "result" := JStr "ok" ]} ],
   Finished, registered).
Proof. vm_compute. reflexivity. Qed.

(** A line that is not JSON is reported and the next line is served. *)
Example malformed_then_unconfigured :
  main [Malformed "Expecting value"; Blank; Parsed (obj (cancel_request 9))] (fresh []) =
  ([ <[ "id" := JNull ]> {[ "error" := JStr "invalid_json:Expecting value" ]};
     <[ "id" := JInt 2 ]> {[ "error" := JStr "client_not_initialized" ]} ],
   Finished, fresh []).
Proof. vm_compute. reflexivity. Qed.

(** A refused registration is retried by the next request for the key. *)
Example refused_then_retried :
  main [Parsed (obj create_request); Parsed (obj create_request)] (fresh [Some "bad key"]) =
  ([ <[ "id" := JInt 1 ]> {[ "error" := JStr "bad key" ]};
     <[ "id" := JInt 1 ]> {[ "result" := JStr "ok" ]} ],
   Finished,
   World {[ 0 := client_config ]} {[ 0 ]} []
         [CharP (create_call 0 client_config "https://x" "0xabc");
          CharP (create_call 0 client_config "https://x" "0xabc")]).
Proof. vm_compute. reflexivity. Qed.

Lemma non_object_line_witness :
  (∀ fields, JInt 42 ≠ JObj fields) ∧
  main [Parsed (JInt 42); Parsed (obj create_request)] (fresh []) =
  ([], Crashed (AttributeError (JInt 42) "get"), fresh []).
Proof.
  assert (∀ fields, JInt 42 ≠ JObj fields) as Hno by (intros fields; discriminate).
  exact (conj Hno (non_object_line_ends_the_process _ _ _ Hno)).
Defined.

Lemma unhashable_method_witness :
  hashable (dict_get (list_to_map [("id", JInt 7); ("method", JArr [])]) "method" JNull)
  = false ∧
  main [Parsed (obj [("id", JInt 7); ("method", JArr [])]); Parsed (obj create_request)]
       (fresh []) =
  ([], Crashed (TypeError (dict_get (list_to_map [("id", JInt 7); ("method", JArr [])])
                                    "method" JNull)),
   fresh []).
Proof.
  assert (hashable (dict_get (list_to_map [("id", JInt 7); ("method", JArr [])])
                             "method" JNull) = false) as Hh by reflexivity.
  exact (conj Hh (unhashable_method_ends_the_process _ _ _ Hh)).
Defined.

Lemma switch_before_sign_witness :
  "sign_cancel_order" ∈ signing_methods ∧
  (list_to_map (cancel_request 0) : dict) !! "method" = Some (JStr "sign_cancel_order") ∧
  respond (obj (cancel_request 0)) registered =
    (Emit (<[ "id" := JInt 2 ]> {[ "result" := JStr "0xsigned" ]}), cancelled) ∧
  is_Some ((<[ "id" := JInt 2 ]> {[ "result" := JStr "0xsigned" ]} : dict) !! "result") ∧
  ∃ (i : Z) (sign : struct_call),
    int_item (dict_get (list_to_map (cancel_request 0)) "params" (JObj ∅)) "apiKeyIndex"
    = inr i ∧
    method_of sign = "sign_cancel_order" ∧
    (calls cancelled = calls registered ++ [CharP (SwitchAPIKey (c_int i)); Struct sign] ∨
     ∃ cfg url key,
       calls cancelled =
       calls registered ++ [CharP (create_call i cfg url key);
                            CharP (SwitchAPIKey (c_int i)); Struct sign]).
Proof.
  assert ("sign_cancel_order" ∈ signing_methods) as Hm
    by (by apply (bool_decide_unpack _)).
  assert ((list_to_map (cancel_request 0) : dict) !! "method"
          = Some (JStr "sign_cancel_order")) as Hf by reflexivity.
  assert (respond (obj (cancel_request 0)) registered =
          (Emit (<[ "id" := JInt 2 ]> {[ "result" := JStr "0xsigned" ]}), cancelled)) as Hr
    by (vm_compute; reflexivity).
  assert (is_Some ((<[ "id" := JInt 2 ]> {[ "result" := JStr "0xsigned" ]} : dict)
                     !! "result")) as Hres by (eexists; reflexivity).
  exact (conj Hm (conj Hf (conj Hr (conj Hres
           (switch_before_sign _ _ _ _ _ Hm Hf Hr Hres))))).
Defined.

Lemma registered_ok : registry_ok registered.
Proof.
  intros i Hi. change (i ∈ ({[ 0 ]} : gset Z)) in Hi.
  apply elem_of_singleton in Hi as ->. by eexists.
Qed.

(** C3, as stated, fails.  Key 0 is initialised in [registered], the world
    the first scenario leaves; a call whose params carry [baseUrl] and
    [privateKey] but no [chainId] does not return [ok]: it raises
    [KeyError('chainId')] while building the configuration. *)
Lemma initialised_key_partial_inline_raises :
  main [Parsed (obj create_request)] (fresh []) =
    ([ <[ "id" := JInt 1 ]> {[ "result" := JStr "ok" ]} ], Finished, registered) ∧
  int_item (obj partial_params) "apiKeyIndex" = inr 0 ∧
  0 ∈ _INITIALISED_KEYS registered ∧
  _ensure_client (obj partial_params) registered = (inl (KeyError "chainId"), registered) ∧
  ¬ ∃ w', _ensure_client (obj partial_params) registered =
          (inr {[ "result" := JStr "ok" ]}, w').
Proof.
  assert (_ensure_client (obj partial_params) registered =
          (inl (KeyError "chainId"), registered)) as E by (vm_compute; reflexivity).
  split; [vm_compute; reflexivity|]. split; [reflexivity|].
  split; [by apply (elem_of_singleton (C:=gset Z))|]. split; [exact E|].
  intros [w' E']. rewrite E in E'. discriminate E'.
Qed.

Lemma initialised_key_witness :
  int_item (obj client_params) "apiKeyIndex" = inr 0 ∧
  0 ∈ _INITIALISED_KEYS registered ∧
  registry_ok registered ∧
  (contains (obj client_params) "baseUrl" && contains (obj client_params) "privateKey" = true →
   ∃ c a, int_item (obj client_params) "chainId" = inr c ∧
          int_item (obj client_params) "accountIndex" = inr a) ∧
  ∃ w', _ensure_client (obj client_params) registered =
        (inr {[ "result" := JStr "ok" ]}, w') ∧
        calls w' = calls registered ∧ LIB w' = LIB registered ∧
        _INITIALISED_KEYS w' = _INITIALISED_KEYS registered ∧
        if contains (obj client_params) "baseUrl" && contains (obj client_params) "privateKey"
        then ∃ cfg, w' = upsert 0 cfg registered ∧
                    getitem (obj client_params) "baseUrl" = inr (baseUrl cfg) ∧
                    getitem (obj client_params) "privateKey" = inr (privateKey cfg)
        else w' = registered.
Proof.
  assert (int_item (obj client_params) "apiKeyIndex" = inr 0) as Hi by reflexivity.
  assert (0 ∈ _INITIALISED_KEYS registered) as Hin
    by (by apply (elem_of_singleton (C:=gset Z))).
  assert (contains (obj client_params) "baseUrl" &&
          contains (obj client_params) "privateKey" = true →
          ∃ c a, int_item (obj client_params) "chainId" = inr c ∧
                 int_item (obj client_params) "accountIndex" = inr a) as Hfull
    by (intros _; exists 1, 5; split; reflexivity).
  exact (conj Hi (conj Hin (conj registered_ok (conj Hfull
           (initialised_key_short_circuits _ _ _ Hi Hin registered_ok Hfull))))).
Defined.

Lemma missing_configuration_witness :
  "sign_cancel_order" ∈ signing_methods ∧
  HANDLERS !! "sign_cancel_order" = Some handle_sign_cancel_order ∧
  int_item (obj (cancel_params 9)) "apiKeyIndex" = inr 9 ∧
  _CLIENT_CONFIG (fresh ([] : list (option string))) !! 9 = None ∧
  contains (obj (cancel_params 9)) "baseUrl" &&
    contains (obj (cancel_params 9)) "privateKey" = false ∧
  handle_sign_cancel_order (obj (cancel_params 9)) (fresh []) =
    (inr {[ "error" := JStr "client_not_initialized" ]}, fresh []).
Proof.
  assert ("sign_cancel_order" ∈ signing_methods) as Hm
    by (by apply (bool_decide_unpack _)).
  assert (HANDLERS !! "sign_cancel_order" = Some handle_sign_cancel_order) as Hh
    by reflexivity.
  assert (int_item (obj (cancel_params 9)) "apiKeyIndex" = inr 9) as Hi by reflexivity.
  assert (_CLIENT_CONFIG (fresh ([] : list (option string))) !! 9 = None) as Hc
    by reflexivity.
  assert (contains (obj (cancel_params 9)) "baseUrl" &&
          contains (obj (cancel_params 9)) "privateKey" = false) as Hn by reflexivity.
  exact (conj Hm (conj Hh (conj Hi (conj Hc (conj Hn
    (missing_configuration_no_backend_call _ _ _ _ _ Hm Hh Hi Hc Hn)))))).
Defined.

Lemma create_client_answer_witness :
  _ensure_client (obj client_params) (fresh [Some "bad key"]) =
    (inr {[ "error" := JStr "bad key" ]}, refused) ∧
  calls refused ≠ calls (fresh [Some "bad key"]) ∧
  ∃ i cfg url key,
    let c := create_call i cfg url key in
    int_item (obj client_params) "apiKeyIndex" = inr i ∧
    _CLIENT_CONFIG refused !! i = Some cfg ∧
    encode (baseUrl cfg) = inr url ∧ encode (privateKey cfg) = inr key ∧
    calls refused = calls (fresh [Some "bad key"]) ++ [CharP c] ∧
    LIB refused = (lib_char_p c (LIB (fresh [Some "bad key"]))).2 ∧
    match truthy (lib_char_p c (LIB (fresh [Some "bad key"]))).1 with
    | Some e =>
        ((inr {[ "error" := JStr "bad key" ]} : exn + dict)
           = inr {[ "error" := JStr (decode_utf8 e) ]} ∧
         _INITIALISED_KEYS refused = _INITIALISED_KEYS (fresh [Some "bad key"]) ∧
         (i ∉ _INITIALISED_KEYS refused) ∧
         ∀ params2 d w2,
           int_item params2 "apiKeyIndex" = inr i →
           _ensure_client params2 refused = (inr d, w2) →
           ∃ cfg2 url2 key2,
             calls w2 = calls refused ++ [CharP (create_call i cfg2 url2 key2)])
    | None =>
        ((inr {[ "error" := JStr "bad key" ]} : exn + dict)
           = inr {[ "result" := JStr "ok" ]} ∧
         _INITIALISED_KEYS refused = {[ i ]} ∪ _INITIALISED_KEYS (fresh [Some "bad key"]))
    end.
Proof.
  assert (_ensure_client (obj client_params) (fresh [Some "bad key"]) =
          (inr {[ "error" := JStr "bad key" ]}, refused)) as E by (vm_compute; reflexivity).
  assert (calls refused ≠ calls (fresh [Some "bad key"])) as Hc by discriminate.
  exact (conj E (conj Hc (create_client_answer_decides_initialisation _ _ _ _ E Hc))).
Defined.

Lemma handler_exception_witness :
  (list_to_map [("id", JInt 3); ("method", JStr "sign_cancel_order")] : dict) !! "method"
  = Some (JStr "sign_cancel_order") ∧
  HANDLERS !! "sign_cancel_order" = Some handle_sign_cancel_order ∧
  handle_sign_cancel_order
    (dict_get (list_to_map [("id", JInt 3); ("method", JStr "sign_cancel_order")])
              "params" (JObj ∅)) registered
  = (inl (KeyError "apiKeyIndex"), registered) ∧
  ∃ response detail,
    respond (JObj (list_to_map [("id", JInt 3); ("method", JStr "sign_cancel_order")]))
            registered = (Emit response, registered) ∧
    response !! "id" =
      Some (dict_get (list_to_map [("id", JInt 3); ("method", JStr "sign_cancel_order")])
                     "id" JNull) ∧
    response !! "error" = Some (JStr detail) ∧
    String.prefix "exception:" detail = true ∧
    response !! "result" = None ∧
    main [Parsed (JObj (list_to_map [("id", JInt 3); ("method", JStr "sign_cancel_order")]));
          Parsed (obj (cancel_request 0))] registered =
    (response :: (main [Parsed (obj (cancel_request 0))] registered).1.1,
     (main [Parsed (obj (cancel_request 0))] registered).1.2,
     (main [Parsed (obj (cancel_request 0))] registered).2).
Proof.
  assert ((list_to_map [("id", JInt 3); ("method", JStr "sign_cancel_order")] : dict)
            !! "method" = Some (JStr "sign_cancel_order")) as Hf by reflexivity.
  assert (HANDLERS !! "sign_cancel_order" = Some handle_sign_cancel_order) as Hh
    by reflexivity.
  assert (handle_sign_cancel_order
            (dict_get (list_to_map [("id", JInt 3); ("method", JStr "sign_cancel_order")])
                      "params" (JObj ∅)) registered
          = (inl (KeyError "apiKeyIndex"), registered)) as He by (vm_compute; reflexivity).
  exact (conj Hf (conj Hh (conj He
           (handler_exception_is_reported _ _ _ _ _ _
              [Parsed (obj (cancel_request 0))] Hf Hh He)))).
Defined.

Lemma incomplete_params_witness :
  (list_to_map [("id", JInt 4); ("method", JStr "create_client");
                ("params", obj partial_params)] : dict) !! "method"
  = Some (JStr "create_client") ∧
  HANDLERS !! "create_client" = Some handle_create_client ∧
  dict_get (list_to_map [("id", JInt 4); ("method", JStr "create_client");
                         ("params", obj partial_params)]) "params" (JObj ∅)
  = JObj (list_to_map partial_params) ∧
  ((list_to_map partial_params : dict) !! "apiKeyIndex" = None ∨
   (is_Some ((list_to_map partial_params : dict) !! "baseUrl") ∧
    is_Some ((list_to_map partial_params : dict) !! "privateKey") ∧
    ((list_to_map partial_params : dict) !! "chainId" = None ∨
     (list_to_map partial_params : dict) !! "accountIndex" = None))) ∧
  ∃ e, handle_create_client (JObj (list_to_map partial_params)) (fresh []) = (inl e, fresh []) ∧
       respond (JObj (list_to_map [("id", JInt 4); ("method", JStr "create_client");
                                   ("params", obj partial_params)])) (fresh []) =
       (Emit (<[ "id" := dict_get (list_to_map [("id", JInt 4);
                                                ("method", JStr "create_client");
                                                ("params", obj partial_params)])
                                  "id" JNull ]>
                {[ "error" := JStr ("exception:" +:+ str_exn e) ]}), fresh []).
Proof.
  assert ((list_to_map [("id", JInt 4); ("method", JStr "create_client");
                        ("params", obj partial_params)] : dict) !! "method"
          = Some (JStr "create_client")) as Hf by reflexivity.
  assert (HANDLERS !! "create_client" = Some handle_create_client) as Hh by reflexivity.
  assert (dict_get (list_to_map [("id", JInt 4); ("method", JStr "create_client");
                                 ("params", obj partial_params)]) "params" (JObj ∅)
          = JObj (list_to_map partial_params)) as Hp by reflexivity.
  assert ((list_to_map partial_params : dict) !! "apiKeyIndex" = None ∨
          (is_Some ((list_to_map partial_params : dict) !! "baseUrl") ∧
           is_Some ((list_to_map partial_params : dict) !! "privateKey") ∧
           ((list_to_map partial_params : dict) !! "chainId" = None ∨
            (list_to_map partial_params : dict) !! "accountIndex" = None))) as Hyp.
  { right. split; [by eexists|]. split; [by eexists|]. by left. }
  exact (conj Hf (conj Hh (conj Hp (conj Hyp
           (incomplete_params_raise_before_any_effect _ _ _ _ (fresh []) Hf Hh Hp Hyp))))).
Defined.

(** ** More scenarios *)

(** A quarantined library on an Apple-silicon Mac: the first load fails on
    the code signature, [xattr] and [codesign] are run, the second load
    succeeds and the request is served. *)
Example quarantined_library_is_resigned :
  script (H0:=laptop)
    (Hosted (Machine "Darwin" "arm64" [arm64_dylib]
               [inl "dlopen failed: code signature invalid"; inr []]) [])
    [Parsed (obj create_request)] =
  ([ <[ "id" := JInt 1 ]> {[ "result" := JStr "ok" ]} ], Returned,
   Hosted (Machine "Darwin" "arm64" [arm64_dylib] [])
          [Cdll arm64_dylib; Run (xattr_argv arm64_dylib);
           Run (codesign_argv arm64_dylib); Cdll arm64_dylib]).
Proof. vm_compute. reflexivity. Qed.

(** On Linux the amd64 library is looked for, also on an ARM machine; when
    it is not there the script ends in a traceback and prints nothing. *)
Example linux_arm_looks_for_amd64 :
  script (H0:=laptop)
    (Hosted (Machine "Linux" "aarch64" [arm64_dylib] [inr []]) [])
    [Parsed (obj create_request)] =
  ([], StartupTraceback (FileNotFoundError
         "Signer library missing: /repo/docs/lighter/lighter-python-main/lighter/signers/signer-amd64.so"),
   Hosted (Machine "Linux" "aarch64" [arm64_dylib] [inr []]) []).
Proof. vm_compute. reflexivity. Qed.

(** A library that cannot be loaded: one response, exit status 1. *)
Example unloadable_library :
  script (H0:=laptop)
    (Hosted (Machine "Darwin" "arm64" [arm64_dylib] [inl "image not found"]) [])
    [Parsed (obj create_request)] =
  ([ <[ "id" := JNull ]> {[ "error" := JStr "failed_to_load_signer:image not found" ]} ],
   Exit1,
   Hosted (Machine "Darwin" "arm64" [arm64_dylib] []) [Cdll arm64_dylib]).
Proof. vm_compute. reflexivity. Qed.

Lemma request_touches_only_its_key_witness :
  HANDLERS !! "create_client" = Some handle_create_client ∧
  int_item (obj client_params) "apiKeyIndex" ≠ inr 7 ∧
  _CLIENT_CONFIG (handle_create_client (obj client_params) (fresh [])).2 !! 7
  = _CLIENT_CONFIG (fresh ([] : list (option string))) !! 7 ∧
  (7 ∈ _INITIALISED_KEYS (handle_create_client (obj client_params) (fresh [])).2 ↔
   7 ∈ _INITIALISED_KEYS (fresh ([] : list (option string)))).
Proof.
  assert (HANDLERS !! "create_client" = Some handle_create_client) as Hh by reflexivity.
  assert (int_item (obj client_params) "apiKeyIndex" ≠ inr 7) as Hj by discriminate.
  exact (conj Hh (conj Hj
           (request_touches_only_its_key _ _ _ (fresh []) 7 Hh Hj))).
Defined.

Lemma handlers_leave_the_registry_witness :
  HANDLERS !! "sign_cancel_order" = Some handle_sign_cancel_order ∧
  _CLIENT_CONFIG (handle_sign_cancel_order (obj (cancel_params 0)) registered).2
  = _CLIENT_CONFIG (_ensure_client (obj (cancel_params 0)) registered).2 ∧
  _INITIALISED_KEYS (handle_sign_cancel_order (obj (cancel_params 0)) registered).2
  = _INITIALISED_KEYS (_ensure_client (obj (cancel_params 0)) registered).2.
Proof.
  assert (HANDLERS !! "sign_cancel_order" = Some handle_sign_cancel_order) as Hh
    by reflexivity.
  exact (conj Hh (handlers_leave_the_registry_to_ensure_client
                    _ _ (obj (cancel_params 0)) registered Hh)).
Defined.

Lemma inline_configuration_witness :
  int_item (obj client_params) "apiKeyIndex" = inr 0 ∧
  getitem (obj client_params) "baseUrl" = inr (JStr "https://x") ∧
  getitem (obj client_params) "privateKey" = inr (JStr "0xabc") ∧
  int_item (obj client_params) "chainId" = inr 1 ∧
  int_item (obj client_params) "accountIndex" = inr 5 ∧
  _CLIENT_CONFIG (_ensure_client (obj client_params) (fresh [Some "bad key"])).2 !! 0
  = Some (Build_ClientConfig (JStr "https://x") (JStr "0xabc") 1 5).
Proof.
  assert (int_item (obj client_params) "apiKeyIndex" = inr 0) as Hi by reflexivity.
  assert (getitem (obj client_params) "baseUrl" = inr (JStr "https://x")) as Hu
    by reflexivity.
  assert (getitem (obj client_params) "privateKey" = inr (JStr "0xabc")) as Hk
    by reflexivity.
  assert (int_item (obj client_params) "chainId" = inr 1) as Hc by reflexivity.
  assert (int_item (obj client_params) "accountIndex" = inr 5) as Ha by reflexivity.
  exact (conj Hi (conj Hu (conj Hk (conj Hc (conj Ha
    (inline_configuration_is_stored _ _ _ _ _ _ (fresh [Some "bad key"])
       Hi Hu Hk Hc Ha)))))).
Defined.

Lemma stored_configuration_witness :
  int_item (obj (cancel_params 0)) "apiKeyIndex" = inr 0 ∧
  contains (obj (cancel_params 0)) "baseUrl" &&
    contains (obj (cancel_params 0)) "privateKey" = false ∧
  _CLIENT_CONFIG refused !! 0 = Some client_config ∧
  (0 ∉ _INITIALISED_KEYS refused) ∧
  encode (baseUrl client_config) = inr "https://x" ∧
  encode (privateKey client_config) = inr "0xabc" ∧
  calls (_ensure_client (obj (cancel_params 0)) refused).2 =
    calls refused ++ [CharP (CreateClient "https://x" "0xabc"
                               (c_int (chainId client_config)) (c_int 0)
                               (c_longlong (accountIndex client_config)))] ∧
  _CLIENT_CONFIG (_ensure_client (obj (cancel_params 0)) refused).2
  = _CLIENT_CONFIG refused.
Proof.
  assert (int_item (obj (cancel_params 0)) "apiKeyIndex" = inr 0) as Hi by reflexivity.
  assert (contains (obj (cancel_params 0)) "baseUrl" &&
          contains (obj (cancel_params 0)) "privateKey" = false) as Hn by reflexivity.
  assert (_CLIENT_CONFIG refused !! 0 = Some client_config) as Hc by reflexivity.
  assert (0 ∉ _INITIALISED_KEYS refused) as Hin
    by (apply (not_elem_of_empty (C:=gset Z))).
  assert (encode (baseUrl client_config) = inr "https://x") as Hu by reflexivity.
  assert (encode (privateKey client_config) = inr "0xabc") as Hk by reflexivity.
  exact (conj Hi (conj Hn (conj Hc (conj Hin (conj Hu (conj Hk
    (stored_configuration_is_used _ _ _ _ _ _ Hi Hn Hc Hin Hu Hk))))))).
Defined.

Lemma signing_answer_witness :
  HANDLERS !! "sign_cancel_order" = Some handle_sign_cancel_order ∧
  handle_sign_cancel_order (obj (cancel_params 0)) registered
  = (inr {[ "result" := JStr "0xsigned" ]}, cancelled) ∧
  calls cancelled
  = calls registered ++ [CharP (SwitchAPIKey 0)] ++ [Struct (SignCancelOrder 1 7 42)] ∧
  method_of (SignCancelOrder 1 7 42) = "sign_cancel_order" ∧
  ∃ i, int_item (obj (cancel_params 0)) "apiKeyIndex" = inr i ∧
       let switched :=
         (lib_char_p (SwitchAPIKey (c_int i))
            (LIB (_ensure_client (obj (cancel_params 0)) registered).2)).2 in
       (inr {[ "result" := JStr "0xsigned" ]} : exn + dict)
       = inr (_unwrap (lib_struct (SignCancelOrder 1 7 42) switched).1) ∧
       LIB cancelled = (lib_struct (SignCancelOrder 1 7 42) switched).2.
Proof.
  assert (HANDLERS !! "sign_cancel_order" = Some handle_sign_cancel_order) as Hh
    by reflexivity.
  assert (handle_sign_cancel_order (obj (cancel_params 0)) registered
          = (inr {[ "result" := JStr "0xsigned" ]}, cancelled)) as He
    by (vm_compute; reflexivity).
  assert (calls cancelled
          = calls registered ++ [CharP (SwitchAPIKey 0)] ++ [Struct (SignCancelOrder 1 7 42)])
    as Hl by reflexivity.
  exact (conj Hh (conj He (conj Hl
           (signing_answer_is_the_response _ _ _ _ _ _ _ _ Hh He Hl)))).
Defined.

Lemma missing_field_witness :
  HANDLERS !! "sign_cancel_order" = Some handle_sign_cancel_order ∧
  "nonce" ∈ operation_fields "sign_cancel_order" ∧
  (list_to_map short_cancel_params : dict) !! "nonce" = None ∧
  int_item (JObj (list_to_map short_cancel_params)) "apiKeyIndex" = inr 0 ∧
  _ensure_client (JObj (list_to_map short_cancel_params)) registered
  = (inr {[ "result" := JStr "ok" ]}, registered) ∧
  has_key {[ "result" := JStr "ok" ]} "error" = false ∧
  truthy (lib_char_p (SwitchAPIKey (c_int 0)) (LIB registered)).1 = None ∧
  ∃ e, handle_sign_cancel_order (JObj (list_to_map short_cancel_params)) registered =
       (inl e, answered (SwitchAPIKey (c_int 0)) (_INITIALISED_KEYS registered) registered).
Proof.
  assert (HANDLERS !! "sign_cancel_order" = Some handle_sign_cancel_order) as Hh
    by reflexivity.
  assert ("nonce" ∈ operation_fields "sign_cancel_order") as Hf
    by (by apply (bool_decide_unpack _)).
  assert ((list_to_map short_cancel_params : dict) !! "nonce" = None) as Hp by reflexivity.
  assert (int_item (JObj (list_to_map short_cancel_params)) "apiKeyIndex" = inr 0) as Hi
    by reflexivity.
  assert (_ensure_client (JObj (list_to_map short_cancel_params)) registered
          = (inr {[ "result" := JStr "ok" ]}, registered)) as He
    by (vm_compute; reflexivity).
  assert (has_key {[ "result" := JStr "ok" ]} "error" = false) as Herr by reflexivity.
  assert (truthy (lib_char_p (SwitchAPIKey (c_int 0)) (LIB registered)).1 = None) as Hs
    by reflexivity.
  exact (conj Hh (conj Hf (conj Hp (conj Hi (conj He (conj Herr (conj Hs
    (missing_field_raises_after_the_switch _ _ _ _ _ _ _ _
       Hh Hf Hp Hi He Herr Hs)))))))).
Defined.

(** ** Ids on the wire *)

(** [{"id":2,"method":"sign_cancel_order","params":{...}}] on a registered
    key: the response carries the id 2, printed as the integer 2. *)
Lemma response_echoes_parsed_id_witness :
  ∃ response,
    (respond (JObj (list_to_map (cancel_request 0))) registered).1 = Emit response ∧
    response !! "id" = Some (JInt 2) ∧
    response !! "id" ≫= dumps_scalar = Some (PInteger 2).
Proof.
  pose proof (response_echoes_parsed_id (list_to_map (cancel_request 0)) registered) as Hr.
  destruct (respond (JObj (list_to_map (cancel_request 0))) registered).1
    as [|response|e] eqn:Er; [destruct Hr| |exfalso; exact Hr].
  exists response. destruct Hr as [Hid Hp].
  split; [reflexivity|]. split; [exact Hid|].
  exact (Hp (SInteger 2) eq_refl).
Defined.

(** [{"id": 1e400}]: the id is read as the float infinity, and the response
    is printed as [{"id": Infinity, "error": "unknown_method:None"}], which
    is not JSON and does not carry the id the request was written with. *)
Lemma id_beyond_double_range_comes_back_as_infinity :
  loads_scalar (SDecimal false 1 400) = JFloat (S754_infinity false) ∧
  ∃ response,
    (respond (JObj {[ "id" := loads_scalar (SDecimal false 1 400) ]}) (fresh [])).1
    = Emit response ∧
    response !! "error" = Some (JStr "unknown_method:None") ∧
    response !! "id" ≫= dumps_scalar = Some PInfinity ∧
    is_json PInfinity = false.
Proof.
  split; [vm_compute; reflexivity|].
  eexists. split; [vm_compute; reflexivity|].
  split; [reflexivity|]. split; reflexivity.
Qed.

(** A line nested deeper than [json.loads] recurses: it raises a
    [RecursionError], which [main] does not catch, so the lines after it are
    never read. *)
Example too_deep_line_ends_the_process :
  main [Unparsable RecursionError; Parsed (obj create_request)] (fresh [])
  = ([], Crashed RecursionError, fresh []).
Proof. reflexivity. Qed.
